(** * trlx: the accelerate-based RL trainer

    A shallow embedding of [trlx/model/accelerate_base_model.py]
    (class [AccelerateRLModel]): the layer-freeze policy of [__init__],
    the [generate] wrapper, the [evaluate] driver and the [learn] loop.

    Conventions.
    - Python integers are [Z]; [range(n)] runs [Z.to_nat n] times.
    - A Python [dict] with string keys is a [gmap string _]; a dict whose
      iteration order is observed is an association list.
    - Calls into collaborators (model, optimizer, accelerator, tokenizer,
      reward and metric functions) are state transformers on an abstract
      world [W]; every such call is also appended to a call log, so that
      "how often" and "in which order" are statements about the log.
    - Python exceptions raised by the code of this file itself
      ([ZeroDivisionError] of [%], [IndexError] of [xs[0]], [TypeError]
      of a keyword bound twice) are explicit results. *)

From Stdlib Require Import ZArith QArith Ascii String List Lia.
From stdpp Require Import gmap strings list fin_maps.

Local Open Scope Z_scope.

#[local] Set Warnings "-clear-no-such-hyp".

(** ** Python list slicing *)

Module PyList.

(** [l[:stop]] for a signed [stop]: a negative [stop] counts from the
    end, and both ends are clamped to the list. *)
Definition slice_stop {A : Type} (l : list A) (stop : Z) : list A :=
  let len := Z.of_nat (length l) in
  let s := if stop <? 0 then Z.max 0 (stop + len) else Z.min stop len in
  take (Z.to_nat s) l.

End PyList.

(** ** Layer-freeze policy ([__init__], lines 54-64) *)

Module Freeze.

(** A parameter tensor carries its [requires_grad] flag; a transformer
    block is the list of its parameters. *)
Record param := { param_name : string; requires_grad : bool }.

Definition block := list param.

(** [m.requires_grad_(flag)]: sets the flag of every parameter of [m]. *)
Definition requires_grad_ (flag : bool) (m : block) : block :=
  map (fun p => {| param_name := param_name p; requires_grad := flag |}) m.

Definition frozen (m : block) : Prop :=
  Forall (fun p => requires_grad p = false) m.

(** The three-way branch on [num_layers_unfrozen]; [A] is the type of
    references to blocks. *)
Definition gpt_blocks_to_freeze {A : Type}
    (num_layers_unfrozen : Z) (gpt_blocks : list A) : list A :=
  if num_layers_unfrozen =? 0 then gpt_blocks
  else if num_layers_unfrozen >? 0
       then PyList.slice_stop gpt_blocks (- num_layers_unfrozen)
       else [].

(** The blocks live in the model; the list built by [list(gpt_blocks)]
    holds references to them.  A reference is the block's position, and
    [m.requires_grad_(False)] updates the model at that position. *)
Definition freeze_at (model : list block) (m : nat) : list block :=
  alter (requires_grad_ false) m model.

Definition freeze_layers (num_layers_unfrozen : Z) (model : list block)
    : list block :=
  fold_left freeze_at
    (gpt_blocks_to_freeze num_layers_unfrozen (seq 0 (length model)))
    model.

(** The number of blocks the policy is said to freeze. *)
Definition frozen_count (num_layers_unfrozen : Z) (n_blocks : nat) : nat :=
  if num_layers_unfrozen =? 0 then n_blocks
  else if num_layers_unfrozen >? 0
       then Z.to_nat (Z.max 0 (Z.of_nat n_blocks - num_layers_unfrozen))
       else 0%nat.

End Freeze.

(** ** Python integers, exceptions and logged values *)

Module Py.

(** The exceptions this file's own code can raise. *)
Inductive exn :=
| ZeroDivisionError   (* [a % 0] *)
| IndexError          (* [xs[0]] on an empty sequence *)
| TypeError           (* a keyword argument bound twice *)
| RuntimeError.       (* raised by a tensor operation *)

(** [a % b]: the remainder takes the sign of the divisor, which is what
    [Z.modulo] computes; a zero divisor raises. *)
Definition mod_ (a b : Z) : option Z :=
  if b =? 0 then None else Some (a mod b).

(** A float: a number or [nan].  Rounding is not modelled, numbers are
    exact rationals. *)
Inductive scalar := Num (q : Q) | NaN.

(** A cell of the samples table. *)
Inductive cell :=
| CText (s : string)
| CIds (ids : list Z)
| CNum (q : Q).

(** What a statistics dict holds: a float, or a [wandb.Table]. *)
Inductive value :=
| VScalar (x : scalar)
| VTable (columns : list string) (rows : list (list cell)).

End Py.

(** ** The training loop ([learn], lines 203-256) *)

Module Learn.
Import Py.

(** The calls [learn] makes on its collaborators. *)
Inductive call {Batch : Type} :=
| CLoss (batch : Batch)
| CBackward
| COptStep
| COptZeroGrad
| CSchedulerStep
| CSave
| CEvaluate
| CLog
| CTbar
| CPostBackward
| CPostEpoch.
Arguments call : clear implicits.

Section WithCollaborators.

Context {W Batch Loss : Type}.

(** The trainer's state: the world of the collaborators, the counter
    [self.iter_count], and the log of calls made so far, each with the
    value of [iter_count] at the time of the call. *)
Record state := {
  world : W;
  iter_count : Z;
  calls : list (Z * call Batch)
}.

(** What the subclass and the libraries provide. *)
Record collaborators := {
  time : W -> Q * W;
  loss : Batch -> W -> (Loss * gmap string value) * W;
  backward : Loss -> W -> W;
  opt_step : W -> W;
  opt_zero_grad : W -> W;
  scheduler_step : W -> W;
  save : W -> W;
  evaluate : W -> gmap string value * W;
  accelerator_log : gmap string value -> W -> W;
  tbar_update : gmap string value -> W -> W;
  post_backward_callback : W -> W;
  post_epoch_callback : W -> W;
  prepare_learning : W -> W;
  (* the batches one pass over [self.train_dataloader] yields *)
  train_dataloader : W -> list Batch
}.

(** The numbers [learn] reads: [config.train.*], and what
    [prepare_learning] sets on [self]. *)
Record settings := {
  epochs : Z;
  n_updates_per_batch : Z;
  checkpoint_interval : Z;
  eval_interval : Z;
  total_steps : Z
}.

Variable env : collaborators.
Variable cfg : settings.

(** How a piece of the loop ends: it runs to its end, it executes
    [return v], or an exception escapes. *)
Inductive outcome :=
| Normal (st : state)
| Return (v : gmap string value) (st : state)
| Raise (e : exn) (st : state).

Definition final_state (o : outcome) : state :=
  match o with Normal st | Return _ st | Raise _ st => st end.

Definition tell (c : call Batch) (st : state) : state :=
  {| world := world st; iter_count := iter_count st;
     calls := calls st ++ [(iter_count st, c)] |}.

(** A call that only changes the world. *)
Definition run (c : call Batch) (f : W -> W) (st : state) : state :=
  let st := tell c st in
  {| world := f (world st); iter_count := iter_count st; calls := calls st |}.

(** A call that also answers. *)
Definition ask {A : Type} (f : W -> A * W) (st : state) : A * state :=
  let (a, w) := f (world st) in
  (a, {| world := w; iter_count := iter_count st; calls := calls st |}).

Definition do_save (st : state) : state := run CSave (save env) st.

Definition do_evaluate (st : state) : gmap string value * state :=
  ask (evaluate env) (tell CEvaluate st).

(** Lines 218-229: forward and backward pass, optimizer and scheduler
    step, and [self.iter_count += 1]. *)
Definition gradient_step (batch : Batch) (st : state)
    : (gmap string value * Q * Q) * state :=
  let (t0, st) := ask (time env) st in
  let (ls, st) := ask (loss env batch) (tell (CLoss batch) st) in
  let (t1, st) := ask (time env) st in
  let forward_time := (t1 - t0)%Q in
  let (t2, st) := ask (time env) st in
  let st := run CBackward (backward env (fst ls)) st in
  let (t3, st) := ask (time env) st in
  let backward_time := (t3 - t2)%Q in
  let st := run COptStep (opt_step env) st in
  let st := run COptZeroGrad (opt_zero_grad env) st in
  let st := run CSchedulerStep (scheduler_step env) st in
  let st := {| world := world st; iter_count := iter_count st + 1;
               calls := calls st |} in
  ((snd ls, forward_time, backward_time), st).

(** Lines 234-244: evaluate, merge the loss statistics and the two times
    into the returned dict ([update]: the later value wins), log it. *)
Definition evaluate_and_log (stats : gmap string value)
    (forward_time backward_time : Q) (st : state) : state :=
  let (results, st) := do_evaluate st in
  let results := stats ∪ results in
  let results :=
    <["backward_time" := VScalar (Num backward_time)]>
      (<["forward_time" := VScalar (Num forward_time)]> results) in
  run CLog (accelerator_log env results) st.

(** The body of the innermost loop, lines 218-252. *)
Definition update (batch : Batch) (st : state) : outcome :=
  let '((stats, forward_time, backward_time), st) := gradient_step batch st in
  match mod_ (iter_count st) (checkpoint_interval cfg) with
  | None => Raise ZeroDivisionError st
  | Some r =>
    let st := if r =? 0 then do_save st else st in
    match mod_ (iter_count st) (eval_interval cfg) with
    | None => Raise ZeroDivisionError st
    | Some r =>
      let st :=
        if r =? 0 then evaluate_and_log stats forward_time backward_time st
        else st in
      let st := run CTbar (tbar_update env stats) st in
      if iter_count st >=? total_steps cfg then
        let st := do_save st in
        let (results, st) := do_evaluate st in
        Return results st
      else Normal st
    end
  end.

(** [for _ in range(n): update] *)
Fixpoint updates_loop (batch : Batch) (n : nat) (st : state) : outcome :=
  match n with
  | O => Normal st
  | S n =>
    match update batch st with
    | Normal st => updates_loop batch n st
    | o => o
    end
  end.

(** The body of the loop over batches, lines 217-254. *)
Definition batch_body (batch : Batch) (st : state) : outcome :=
  match updates_loop batch (Z.to_nat (n_updates_per_batch cfg)) st with
  | Normal st => Normal (run CPostBackward (post_backward_callback env) st)
  | o => o
  end.

Fixpoint batches_loop (batches : list Batch) (st : state) : outcome :=
  match batches with
  | [] => Normal st
  | batch :: batches =>
    match batch_body batch st with
    | Normal st => batches_loop batches st
    | o => o
    end
  end.

(** The body of the loop over epochs, lines 216-256; the dataloader is
    read when the pass over it starts. *)
Definition epoch_body (st : state) : outcome :=
  match batches_loop (train_dataloader env (world st)) st with
  | Normal st => Normal (run CPostEpoch (post_epoch_callback env) st)
  | o => o
  end.

Fixpoint epochs_loop (n : nat) (st : state) : outcome :=
  match n with
  | O => Normal st
  | S n =>
    match epoch_body st with
    | Normal st => epochs_loop n st
    | o => o
    end
  end.

(** [learn]: [Normal] is falling off the end of the loops, where Python
    returns [None]. *)
Definition learn (w : W) : outcome :=
  let st := {| world := prepare_learning env w; iter_count := 0; calls := [] |} in
  epochs_loop (Z.to_nat (epochs cfg)) st.

(** The steps at which a kind of call was made. *)
Definition steps_of (p : call Batch -> bool) (log : list (Z * call Batch)) : list Z :=
  map fst (List.filter (fun e => p (snd e)) log).

End WithCollaborators.

Arguments state : clear implicits.
Arguments collaborators : clear implicits.
Arguments outcome : clear implicits.

Definition is_save {Batch} (c : call Batch) : bool :=
  match c with CSave => true | _ => false end.
Definition is_evaluate {Batch} (c : call Batch) : bool :=
  match c with CEvaluate => true | _ => false end.
Definition is_loss {Batch} (c : call Batch) : bool :=
  match c with CLoss _ => true | _ => false end.
Definition is_hook {Batch} (c : call Batch) : bool :=
  match c with CPostBackward | CPostEpoch => true | _ => false end.

End Learn.

(** ** What the log of [learn] is compared with *)

Module LearnSpec.
Import Py Learn.

Section Shapes.

Context {Batch : Type}.
Variable cfg : settings.

(** The calls of lines 218-228, made while the counter is still [k]. *)
Definition gradient_calls (batch : Batch) (k : Z) : list (Z * call Batch) :=
  [(k, CLoss batch); (k, CBackward); (k, COptStep); (k, COptZeroGrad);
   (k, CSchedulerStep)].

(** The calls of one pass through the body of the innermost loop that
    starts with the counter at [k]. *)
Definition update_calls (batch : Batch) (k : Z) : list (Z * call Batch) :=
  let k' := k + 1 in
  gradient_calls batch k ++
  match mod_ k' (checkpoint_interval cfg) with
  | None => []
  | Some r =>
    (if r =? 0 then [(k', CSave)] else []) ++
    match mod_ k' (eval_interval cfg) with
    | None => []
    | Some r =>
      (if r =? 0 then [(k', CEvaluate); (k', CLog)] else []) ++
      [(k', CTbar)] ++
      (if k' >=? total_steps cfg then [(k', CSave); (k', CEvaluate)] else [])
    end
  end.

(** The steps [1..n] that a cadence of the given interval selects. *)
Definition cadence_steps (interval : Z) (n : nat) : list Z :=
  List.filter (fun j => j mod interval =? 0) (map Z.of_nat (seq 1 n)).

(** The loss calls and hook calls of a log, in order. *)
Definition is_loss_or_hook (c : call Batch) : bool := is_loss c || is_hook c.

Definition loss_and_hooks (log : list (Z * call Batch)) : list (call Batch) :=
  List.filter is_loss_or_hook (map snd log).

(** What a batch, and an epoch, contribute to [loss_and_hooks] when
    nothing cuts them short. *)
Definition batch_shape (batch : Batch) : list (call Batch) :=
  repeat (CLoss batch) (Z.to_nat (n_updates_per_batch cfg)) ++ [CPostBackward].

Definition epoch_shape (batches : list Batch) : list (call Batch) :=
  concat (map batch_shape batches) ++ [CPostEpoch].

End Shapes.

Section Assertions.

Context {W Batch Loss : Type}.
Variable env : collaborators W Batch Loss.
Variable cfg : settings.

Local Abbreviation state := (state W Batch).
Local Abbreviation outcome := (outcome W Batch).

(** [triple P c Qn Qr Qx]: from a state in [P], the piece of code [c]
    ends in [Qn] when it runs to its end, in [Qr] when it returns, and in
    [Qx] when it raises. *)
Definition triple (P : state -> Prop) (c : state -> outcome)
    (Qn : state -> Prop) (Qr : gmap string value -> state -> Prop)
    (Qx : exn -> state -> Prop) : Prop :=
  forall st, P st ->
    match c st with
    | Normal st' => Qn st'
    | Return v st' => Qr v st'
    | Raise e st' => Qx e st'
    end.

(** The value of the counter at which the termination check fires: the
    check comes after the increment, so never before the first update. *)
Definition stop_step : Z := Z.max 1 (total_steps cfg).

(** After [j] updates, none of which reached the step budget. *)
Definition counted (j : Z) (st : state) : Prop :=
  iter_count st = j /\ 0 <= j < stop_step
  /\ steps_of is_loss (calls st) = map Z.of_nat (seq 0 (Z.to_nat j))
  /\ steps_of is_save (calls st)
     = cadence_steps (checkpoint_interval cfg) (Z.to_nat j)
  /\ steps_of is_evaluate (calls st)
     = cadence_steps (eval_interval cfg) (Z.to_nat j).

(** [v] and [st] are what lines 251-252 leave: a save, then an
    evaluation whose answer is [v], and nothing after it. *)
Definition terminal (v : gmap string value) (st : state) : Prop :=
  exists st_t : state,
    do_evaluate env (do_save env st_t) = (v, st)
    /\ iter_count st_t = iter_count st
    /\ calls st = calls st_t ++ [(iter_count st, CSave); (iter_count st, CEvaluate)].

(** After the update that reached the step budget, within [n] updates. *)
Definition stopped (n : Z) (v : gmap string value) (st : state) : Prop :=
  iter_count st = stop_step /\ stop_step <= n
  /\ steps_of is_loss (calls st) = map Z.of_nat (seq 0 (Z.to_nat stop_step))
  /\ steps_of is_save (calls st)
     = cadence_steps (checkpoint_interval cfg) (Z.to_nat stop_step)
       ++ [stop_step]
  /\ steps_of is_evaluate (calls st)
     = cadence_steps (eval_interval cfg) (Z.to_nat stop_step)
       ++ [stop_step]
  /\ terminal v st.

(** The batch list is what one pass over the dataloader yields in some
    world. *)
Definition from_dataloader (batches : list Batch) : Prop :=
  exists w, batches = train_dataloader env w.

(** The loss and hook calls so far are those of [e] whole epochs, then of
    the whole batches [finished] of the current epoch, then [partial]. *)
Definition exhausted (e : nat) (finished : list Batch)
    (partial : list (call Batch)) (st : state) : Prop :=
  exists ebs : list (list Batch),
    length ebs = e /\ Forall from_dataloader ebs
    /\ loss_and_hooks (calls st)
       = concat (map (epoch_shape cfg) ebs)
         ++ concat (map (batch_shape cfg) finished) ++ partial.

(** The run stopped inside an update of batch [batch]: after fewer than
    [E] whole epochs and the whole batches before [batch], only loss calls
    for [batch] follow, at least one and at most one per repetition. *)
Definition cut_short (E : nat) (st : state) : Prop :=
  exists (e : nat) (finished : list Batch) (batch : Batch)
         (rest : list Batch) (r : nat),
    (e < E)%nat
    /\ (1 <= r <= Z.to_nat (n_updates_per_batch cfg))%nat
    /\ from_dataloader (finished ++ batch :: rest)
    /\ exhausted e finished (repeat (CLoss batch) r) st.

End Assertions.

End LearnSpec.

(** ** Tensors of token ids *)

Module Tensor.

(** A 2-D integer tensor of shape [(length rows, width)]; [width] is
    [shape[1]], which an empty batch still has. *)
Record tensor := { width : nat; rows : list (list Z) }.

(** Every row has [width] elements. *)
Definition wf (t : tensor) : Prop :=
  Forall (fun row => length row = width t) (rows t).

(** Modelled from the spec: [F.pad] is torch's and not under src/.  The
    spec (4.5) has [F.pad(t, (0, amount), value=value)] bring a sample to
    the target width on the right; for a negative [amount], which the
    spec leaves open, this follows torch's constant padding of the last
    dimension: the new width is the old one plus [amount], a positive
    [amount] appends [value] on the right, a negative one drops elements
    from the right, and a negative new width is refused with a
    [RuntimeError] ([None]).  Whether an empty result is accepted differs
    between torch releases; nothing below depends on it. *)
Definition pad_right (t : tensor) (amount value : Z) : option tensor :=
  let new_width := Z.of_nat (width t) + amount in
  if new_width <? 0 then None
  else Some {| width := Z.to_nat new_width;
               rows := map (fun row => take (Z.to_nat new_width)
                                         (row ++ repeat value (Z.to_nat amount)))
                           (rows t) |}.

(** Modelled from the spec: [torch.vstack] is torch's and not under
    src/.  It stacks the accumulated tensors, in order, into one; there
    must be at least one and they must be of one width, else it raises
    ([None]). *)
Definition vstack (ts : list tensor) : option tensor :=
  match ts with
  | [] => None
  | t :: ts' =>
    if forallb (fun t' => Nat.eqb (width t') (width t)) ts'
    then Some {| width := width t; rows := concat (map rows ts) |}
    else None
  end.

End Tensor.

(** ** [generate] (lines 105-116) and [evaluate] (lines 134-201) *)

Module Eval.
Import Py Tensor.

(** The tokenizer, as far as [evaluate] uses it; [batch_decode] decodes
    row by row. *)
Record tokenizer := { eos_token_id : Z; decode : list Z -> string }.

(** What [model.generate] returns: the sample tensor, or a tuple that
    starts with it. *)
Inductive generated :=
| GenTensor (samples : tensor)
| GenTuple (samples : tensor) (others : list tensor).

(** A batch of the evaluation dataloader: a tensor of prompts, or a dict
    with [input_ids] and possibly [attention_mask]. *)
Inductive prompts :=
| PromptTensor (input_ids : tensor)
| PromptDict (input_ids : tensor) (attention_mask : option tensor).

(** The gathered samples as the reward and metric functions see them:
    decoded to text when there is a tokenizer, the raw tensor otherwise. *)
Inductive samples :=
| Decoded (texts : list string)
| Raw (t : tensor).

(** [if isinstance(samples, tuple): samples, *_ = samples] *)
Definition unwrap (out : generated) : tensor :=
  match out with
  | GenTensor t => t
  | GenTuple t _ => t
  end.

(** [torch.as_tensor(xs, dtype=float).mean()]: [nan] on no elements. *)
Definition tensor_mean (xs : list Q) : scalar :=
  match xs with
  | [] => NaN
  | _ => Num (Qred (fold_right Qplus 0%Q xs / inject_Z (Z.of_nat (length xs))))
  end.

(** [list(zip( *columns))]: rows are cut at the shortest column. *)
Fixpoint zip_rows (n : nat) (columns : list (list cell)) : list (list cell) :=
  match n with
  | O => []
  | S n =>
    if forallb (fun c => negb (Nat.eqb (length c) 0)) columns
    then omap head columns :: zip_rows n (map tail columns)
    else []
  end.

Definition zip_star (columns : list (list cell)) : list (list cell) :=
  match columns with
  | [] => []
  | c :: _ => zip_rows (length c) columns
  end.

Section WithCollaborators.

Context {W V : Type}.

(** The calls [generate] and [evaluate] make, with their arguments; the
    decoding call also records whether gradients were enabled. *)
Inductive call :=
| CModelGenerate (input_ids : tensor) (attention_mask : option tensor)
                 (kwargs : gmap string V) (grad_enabled : bool)
| CPad (t : tensor) (amount value : Z)
| CGather (t : tensor)
| CBatchDecode (t : tensor)
| CRewardFn (s : samples)
| CMetricFn (s : samples)
| CPrint.

(** The trainer as [generate] and [evaluate] read it. *)
Record trainer := {
  time : W -> Q * W;
  (* [self.accelerator.unwrap_model(self.model).generate] *)
  model_generate : tensor -> option tensor -> gmap string V -> W -> generated * W;
  gather : tensor -> W -> tensor * W;
  is_main_process : bool;
  generate_kwargs : gmap string V;
  max_length : Z;
  self_tokenizer : option tokenizer;
  reward_fn : option (samples -> W -> list Q * W);
  metric_fn : option (samples -> W -> list (string * list Q) * W);
  eval_dataloader : list prompts
}.

Variable self : trainer.

Record state := {
  world : W;
  grad_enabled : bool;
  log : list call
}.

(** A computation ends with a value or with an exception. *)
Inductive result (A : Type) :=
| Ok (a : A) (st : state)
| Err (e : exn) (st : state).
Arguments Ok {A}.
Arguments Err {A}.

Definition M (A : Type) : Type := state -> result A.

#[local] Instance M_ret : MRet M := fun A a st => Ok a st.

#[local] Instance M_bind : MBind M := fun A B f c st =>
  match c st with
  | Ok a st' => f a st'
  | Err e st' => Err e st'
  end.

Definition raise {A : Type} (e : exn) : M A := fun st => Err e st.

Definition tell (c : call) : M unit := fun st =>
  Ok tt {| world := world st; grad_enabled := grad_enabled st;
           log := log st ++ [c] |}.

Definition ask {A : Type} (f : W -> A * W) : M A := fun st =>
  let (a, w) := f (world st) in
  Ok a {| world := w; grad_enabled := grad_enabled st; log := log st |}.

Definition set_grad (flag : bool) (st : state) : state :=
  {| world := world st; grad_enabled := flag; log := log st |}.

(** [with torch.no_grad(): body]: gradients are off inside, and the
    earlier mode is back afterwards, also when [body] raises. *)
Definition no_grad {A : Type} (body : M A) : M A := fun st =>
  match body (set_grad false st) with
  | Ok a st' => Ok a (set_grad (grad_enabled st) st')
  | Err e st' => Err e (set_grad (grad_enabled st) st')
  end.

(** The call [model.generate(input_ids=.., attention_mask=.., **kwargs)]:
    Python refuses a keyword that is given twice. *)
Definition call_model_generate (input_ids : tensor)
    (attention_mask : option tensor) (kwargs : gmap string V) : M generated :=
  match kwargs !! "input_ids", kwargs !! "attention_mask" with
  | None, None =>
    fun st =>
      (_ ← tell (CModelGenerate input_ids attention_mask kwargs (grad_enabled st));
       ask (model_generate self input_ids attention_mask kwargs)) st
  | _, _ => raise TypeError
  end.

(** [generate]: moving the tensors to the device changes no value;
    [dict(self.generate_kwargs, **kwargs)] lets the caller's value win. *)
Definition generate (input_ids : tensor) (attention_mask : option tensor)
    (kwargs : gmap string V) : M generated :=
  let kwargs := kwargs ∪ generate_kwargs self in
  no_grad (call_model_generate input_ids attention_mask kwargs).

Definition pad_token : Z :=
  match self_tokenizer self with
  | Some tok => eos_token_id tok
  | None => 0
  end.

Definition F_pad (t : tensor) (amount value : Z) : M tensor :=
  _ ← tell (CPad t amount value);
  match pad_right t amount value with
  | Some t' => mret t'
  | None => raise RuntimeError
  end.

(** Lines 139-155, with [all_samples] as accumulator. *)
Fixpoint sample_loop (batches : list prompts) (all_samples : list tensor)
    : M (list tensor) :=
  match batches with
  | [] => mret all_samples
  | batch :: batches =>
    out ← match batch with
          | PromptTensor ids => generate ids None ∅
          | PromptDict ids mask => generate ids mask ∅
          end;
    let samples := unwrap out in
    padded ← F_pad samples (max_length self - Z.of_nat (width samples)) pad_token;
    sample_loop batches (all_samples ++ [padded])
  end.

Definition torch_vstack (ts : list tensor) : M tensor :=
  match vstack ts with
  | Some t => mret t
  | None => raise RuntimeError
  end.

(** [xs[0]] *)
Definition first {A : Type} (xs : list A) : M A :=
  match xs with
  | x :: _ => mret x
  | [] => raise IndexError
  end.

(** Lines 161-167: decode, look at [samples[0]], build the first
    column. *)
Definition decode_samples (t : tensor) : M (samples * list (list cell)) :=
  match self_tokenizer self with
  | Some tok =>
    _ ← tell (CBatchDecode t);
    let texts := map (decode tok) (rows t) in
    _ ← first texts;
    mret (Decoded texts, [map CText texts])
  | None =>
    _ ← first (rows t);
    mret (Raw t, [map CIds (rows t)])
  end.

(** The table under construction. *)
Record table := {
  stats : gmap string value;
  columns : list string;
  columns_data : list (list cell)
}.

(** Lines 171-177. *)
Definition add_reward (s : samples) (tb : table) : M table :=
  match reward_fn self with
  | Some f =>
    _ ← tell (CRewardFn s);
    rewards ← ask (f s);
    let mean_reward := tensor_mean rewards in
    _ ← tell CPrint;
    mret {| stats := <["mean_reward" := VScalar mean_reward]> (stats tb);
            columns := columns tb ++ ["reward"];
            columns_data := columns_data tb ++ [map CNum rewards] |}
  | None => mret tb
  end.

(** [stats.update(mean_metrics)] *)
Definition update_mean_metrics (metrics : list (string * list Q))
    (st : gmap string value) : gmap string value :=
  fold_left (fun m kx => <["metrics/" +:+ fst kx := VScalar (tensor_mean (snd kx))]> m)
            metrics st.

(** Lines 180-194. *)
Definition add_metrics (s : samples) (tb : table) : M table :=
  match metric_fn self with
  | Some f =>
    t0 ← ask (time self);
    _ ← tell (CMetricFn s);
    metrics ← ask (f s);
    t1 ← ask (time self);
    let st := <["metric_time" := VScalar (Num (t1 - t0))]> (stats tb) in
    mret {| stats := update_mean_metrics metrics st;
            columns := columns tb ++ map fst metrics;
            columns_data := columns_data tb
                            ++ map (fun kx => map CNum (snd kx)) metrics |}
  | None => mret tb
  end.

(** Lines 160-199, the part only the main process runs. *)
Definition on_main_process (st : gmap string value) (gathered : tensor)
    : M (gmap string value) :=
  '(s, data) ← decode_samples gathered;
  tb ← add_reward s {| stats := st; columns := ["samples"]; columns_data := data |};
  tb ← add_metrics s tb;
  let rows := zip_star (columns_data tb) in
  let st := <["samples" := VTable (columns tb) rows]> (stats tb) in
  _ ← first rows;
  _ ← tell CPrint;
  mret st.

Definition evaluate : M (gmap string value) :=
  t0 ← ask (time self);
  all_samples ← sample_loop (eval_dataloader self) [];
  t1 ← ask (time self);
  let st := <["generate_time" := VScalar (Num (t1 - t0))]> ∅ in
  stacked ← torch_vstack all_samples;
  _ ← tell (CGather stacked);
  gathered ← ask (gather self stacked);
  if is_main_process self then on_main_process st gathered
  else mret st.

End WithCollaborators.

Arguments call : clear implicits.
Arguments trainer : clear implicits.
Arguments state : clear implicits.
Arguments result : clear implicits.
Arguments Ok {W V A}.
Arguments Err {W V A}.

#[export] Existing Instance M_ret.
#[export] Existing Instance M_bind.

End Eval.

(** ** What the log of [evaluate] is compared with *)

Module EvalSpec.
Import Py Tensor Eval.

Section Projections.

Context {W V : Type}.

Definition sel_pad (c : call V) : option (tensor * Z * Z) :=
  match c with CPad t a v => Some (t, a, v) | _ => None end.

Definition sel_gather (c : call V) : option tensor :=
  match c with CGather t => Some t | _ => None end.

Definition sel_reward (c : call V) : option samples :=
  match c with CRewardFn s => Some s | _ => None end.

(** The [F.pad] calls of a log with their arguments, the tensors handed
    to [gather], and the arguments of the reward function. *)
Definition pad_calls (l : list (call V)) := omap sel_pad l.
Definition gather_calls (l : list (call V)) := omap sel_gather l.
Definition reward_calls (l : list (call V)) := omap sel_reward l.

(** [t] is a sample tensor the model produced. *)
Definition model_output (self : trainer W V) (t : tensor) : Prop :=
  exists ids mask kwargs w,
    t = unwrap (fst (model_generate self ids mask kwargs w)).

(** [p] is [t] brought to width [L] on the right with [v]. *)
Definition brought_to (L v : Z) (t p : tensor) : Prop :=
  pad_right t (L - Z.of_nat (width t)) v = Some p
  /\ width p = Z.to_nat L
  /\ (wf t -> wf p)
  /\ rows p = map (fun row => take (Z.to_nat L)
                     (row ++ repeat v (Z.to_nat (L - Z.of_nat (width t)))))
                  (rows t).

(** The keys the statistics dict of [evaluate] is said to hold, given the
    names of the metrics the metric function returned. *)
Definition expected_keys (self : trainer W V) (names : list string) : gset string :=
  {["generate_time"]} ∪
  (if is_main_process self then
     {["samples"]}
     ∪ (match reward_fn self with Some _ => {["mean_reward"]} | None => ∅ end)
     ∪ (match metric_fn self with
        | Some _ => {["metric_time"]}
                    ∪ list_to_set (map (fun k => "metrics/" +:+ k) names)
        | None => ∅
        end)
   else ∅).

(** The state a computation ends in, whether it returns or raises. *)
Definition final {A : Type} (r : result W V A) : state W V :=
  match r with Ok _ st | Err _ st => st end.

(** The computation makes no call that [sel] selects. *)
Definition keeps {A X : Type} (sel : call V -> option X) (c : M (W:=W) (V:=V) A) : Prop :=
  forall st, omap sel (log (final (c st))) = omap sel (log st).

End Projections.

End EvalSpec.

(** A trainer for [evaluate] whose model echoes its prompts and whose
    accelerator runs one process. *)

Module Echo.
Import Py Tensor Eval.

Definition three_prompts : tensor :=
  {| width := 2; rows := [[11; 12]; [21; 22]; [31; 32]] |}.

Definition five_wide : tensor :=
  {| width := 5; rows := [[1; 2; 3; 4; 5]; [6; 7; 8; 9; 10]] |}.

Definition trainer (main : bool) (tok : option tokenizer)
    (defaults : gmap string Z) (max_len : Z) (batches : list prompts)
    : Eval.trainer unit Z := {|
  time := fun w => (0%Q, w);
  model_generate := fun ids _ _ w => (GenTensor ids, w);
  gather := fun t w => (t, w);
  is_main_process := main;
  generate_kwargs := defaults;
  max_length := max_len;
  self_tokenizer := tok;
  reward_fn := Some (fun _ w => ([1%Q; 2%Q; 3%Q], w));
  metric_fn := None;
  eval_dataloader := batches
|}.

Definition start : state unit Z :=
  {| world := tt; grad_enabled := true; log := [] |}.

(** The same with a reward function and a metric function, on the main
    process or not. *)
Definition scored (main : bool) : Eval.trainer unit Z := {|
  time := fun w => (0%Q, w);
  model_generate := fun ids _ _ w => (GenTensor ids, w);
  gather := fun t w => (t, w);
  is_main_process := main;
  generate_kwargs := ∅;
  max_length := 20;
  self_tokenizer := None;
  reward_fn := Some (fun _ w => ([1%Q; 2%Q; 3%Q], w));
  metric_fn := Some (fun _ w => ([("length", [2%Q; 2%Q; 2%Q]);
                                  ("distinct", [1%Q; 2%Q; 2%Q])], w));
  eval_dataloader := [PromptTensor three_prompts]
|}.

(** What [evaluate] returns, and the state it leaves, for [scored true]
    started from [start]. *)
Definition scored_stats : gmap string value :=
  Eval vm_compute in
    match evaluate (scored true) start with
    | Ok result _ => result
    | Err _ _ => ∅
    end.

Definition scored_final : state unit Z :=
  Eval vm_compute in EvalSpec.final (evaluate (scored true) start).

End Echo.

(** A trainer whose collaborators do nothing, over a fixed list of
    batches: enough to run [learn] and read its counter and its log. *)

Module Idle.
Import Py Learn.

Definition trainer (batches : list nat) : collaborators unit nat unit := {|
  time := fun w => (0%Q, w);
  loss := fun _ w => ((tt, ∅), w);
  backward := fun _ w => w;
  opt_step := fun w => w;
  opt_zero_grad := fun w => w;
  scheduler_step := fun w => w;
  save := fun w => w;
  evaluate := fun w => (∅, w);
  accelerator_log := fun _ w => w;
  tbar_update := fun _ w => w;
  post_backward_callback := fun w => w;
  post_epoch_callback := fun w => w;
  prepare_learning := fun w => w;
  train_dataloader := fun _ => batches
|}.

(** [total_steps=10, checkpoint_interval=5, eval_interval=10], one epoch,
    one update per batch. *)
Definition scenario : settings := {|
  epochs := 1; n_updates_per_batch := 1;
  checkpoint_interval := 5; eval_interval := 10; total_steps := 10
|}.

Definition ten_batches : list nat := seq 0 10.

(** A step budget of zero. *)
Definition no_budget : settings := {|
  epochs := 1; n_updates_per_batch := 1;
  checkpoint_interval := 5; eval_interval := 10; total_steps := 0
|}.

(** Two epochs, two updates per batch, a budget of three steps. *)
Definition small : settings := {|
  epochs := 2; n_updates_per_batch := 2;
  checkpoint_interval := 5; eval_interval := 10; total_steps := 3
|}.

(** The state [learn] starts its loops from, and the state after the
    first batch of a run under [small]. *)
Definition init : state unit nat :=
  {| world := tt; iter_count := 0; calls := [] |}.

Definition after_first_batch : state unit nat :=
  Eval vm_compute in
    final_state (batches_loop (trainer [0; 1; 2]%nat) small [0%nat] init).

End Idle.

(** ** More to read off the log of [learn] *)

Module LearnLog.
Import Py Learn LearnSpec.

Definition is_backward {Batch} (c : call Batch) : bool :=
  match c with CBackward => true | _ => false end.
Definition is_opt_step {Batch} (c : call Batch) : bool :=
  match c with COptStep => true | _ => false end.
Definition is_opt_zero_grad {Batch} (c : call Batch) : bool :=
  match c with COptZeroGrad => true | _ => false end.
Definition is_scheduler_step {Batch} (c : call Batch) : bool :=
  match c with CSchedulerStep => true | _ => false end.
Definition is_log {Batch} (c : call Batch) : bool :=
  match c with CLog => true | _ => false end.

(** The counter values [0 .. k-1]. *)
Definition counter_values (k : Z) : list Z := map Z.of_nat (seq 0 (Z.to_nat k)).

Section Assertions.

Context {W Batch : Type}.

(** Loss, backward pass, optimizer step, gradient reset and scheduler
    step have each been called once per counter value so far. *)
Definition lockstep (st : state W Batch) : Prop :=
  0 <= iter_count st
  /\ steps_of is_loss (calls st) = counter_values (iter_count st)
  /\ steps_of is_backward (calls st) = counter_values (iter_count st)
  /\ steps_of is_opt_step (calls st) = counter_values (iter_count st)
  /\ steps_of is_opt_zero_grad (calls st) = counter_values (iter_count st)
  /\ steps_of is_scheduler_step (calls st) = counter_values (iter_count st).

(** Only hooks have been called, and the counter has not moved. *)
Definition idle (st : state W Batch) : Prop :=
  iter_count st = 0 /\ Forall (fun e => is_hook (snd e) = true) (calls st).

End Assertions.

End LearnLog.

(** ** What the evaluation logs *)

Module EvalLog.
Import Py Tensor Eval EvalSpec.

Definition prompt_ids (batch : prompts) : tensor :=
  match batch with PromptTensor ids | PromptDict ids _ => ids end.

Definition prompt_mask (batch : prompts) : option tensor :=
  match batch with PromptTensor _ => None | PromptDict _ mask => mask end.

Section Projections.

Context {W V : Type}.

Definition sel_model (c : call V)
    : option (tensor * option tensor * gmap string V * bool) :=
  match c with CModelGenerate i m k g => Some (i, m, k, g) | _ => None end.

(** The calls only the main process makes. *)
Definition sel_scoring (c : call V) : option (call V) :=
  match c with
  | CBatchDecode _ | CRewardFn _ | CMetricFn _ | CPrint => Some c
  | _ => None
  end.

Definition model_calls (l : list (call V)) := omap sel_model l.

(** A decoding call is made without gradient tracking and with exactly
    the trainer's default generation parameters. *)
Definition disciplined (self : trainer W V) (c : call V) : Prop :=
  match c with
  | CModelGenerate _ _ kwargs grad => grad = false /\ kwargs = generate_kwargs self
  | _ => True
  end.

(** The computation only appends calls that satisfy [P], and leaves the
    gradient mode as it found it, however it ends. *)
Definition grows {A : Type} (P : call V -> Prop) (c : M (W:=W) (V:=V) A) : Prop :=
  forall st,
    grad_enabled (final (c st)) = grad_enabled st
    /\ exists l, log (final (c st)) = log st ++ l /\ Forall P l.

End Projections.

End EvalLog.

(** A trainer whose model produces no sample at all. *)

Module Mute.
Import Py Tensor Eval.

Definition trainer (tok : option tokenizer) : Eval.trainer unit Z := {|
  time := fun w => (0%Q, w);
  model_generate := fun ids _ _ w => (GenTensor {| width := width ids; rows := [] |}, w);
  gather := fun t w => (t, w);
  is_main_process := true;
  generate_kwargs := ∅;
  max_length := 4;
  self_tokenizer := tok;
  reward_fn := Some (fun _ w => ([], w));
  metric_fn := None;
  eval_dataloader := [PromptTensor Echo.three_prompts]
|}.

End Mute.

(** * Properties *)

Module FreezeFacts.
Import Freeze.

Lemma slice_stop_neg {A : Type} (l : list A) (n : Z) :
  0 < n ->
  PyList.slice_stop l (- n) = take (Z.to_nat (Z.max 0 (Z.of_nat (length l) - n))) l.
Proof.
  intros Hn. unfold PyList.slice_stop.
  destruct (Z.ltb_spec (- n) 0) as [_ | Hge]; [ | lia ].
  do 2 f_equal. lia.
Qed.

Lemma to_freeze_take {A : Type} (n : Z) (l : list A) :
  gpt_blocks_to_freeze n l = take (frozen_count n (length l)) l.
Proof.
  unfold gpt_blocks_to_freeze, frozen_count.
  destruct (Z.eqb_spec n 0) as [-> | Hne].
  - by rewrite firstn_all.
  - destruct (Z.gtb_spec n 0) as [Hpos | Hneg].
    + by apply slice_stop_neg.
    + by rewrite take_0.
Qed.

Lemma fold_freeze_seq (k : nat) : forall (i : nat) (model : list block),
  (i + k <= length model)%nat ->
  fold_left freeze_at (seq i k) model
  = take i model ++ map (requires_grad_ false) (take k (drop i model))
    ++ drop (i + k) model.
Proof.
  induction k as [ | k IH ]; intros i model Hlen.
  - rewrite Nat.add_0_r, take_0. cbn [seq fold_left map app].
    by rewrite take_drop.
  - cbn [seq fold_left].
    assert (Hi : (i < length model)%nat) by lia.
    destruct (lookup_lt_is_Some_2 model i Hi) as [b Hb].
    rewrite IH by (unfold freeze_at; rewrite length_alter; lia).
    unfold freeze_at.
    rewrite (take_S_r _ _ (requires_grad_ false b))
      by (rewrite list_lookup_alter_eq, Hb; done).
    rewrite take_alter, !drop_alter.
    repeat case_decide; try lia.
    rewrite (drop_S _ _ _ Hb). cbn [take map].
    rewrite <- app_assoc. cbn [app].
    do 4 f_equal. lia.
Qed.

Lemma frozen_count_le (n : Z) (len : nat) : (frozen_count n len <= len)%nat.
Proof.
  unfold frozen_count.
  destruct (Z.eqb_spec n 0); [ lia | ].
  destruct (Z.gtb_spec n 0); lia.
Qed.

Lemma take_seq_0 (k len : nat) : (k <= len)%nat -> take k (seq 0 len) = seq 0 k.
Proof.
  intros Hk. replace len with (k + (len - k))%nat by lia.
  rewrite seq_app, take_app_length'; [ done | by rewrite length_seq ].
Qed.

(** C4.  For every block list and every signed [num_layers_unfrozen],
    the blocks selected for freezing are the first [k] blocks, where [k]
    is the whole block count when the number is [0], is
    [max 0 (len - num_layers_unfrozen)] when it is positive (so nothing
    is frozen once it exceeds the block count), and is [0] when it is
    negative; the loop over the selection switches gradients off in
    exactly those [k] blocks of the model and leaves the others as they
    were. *)
Theorem freeze_policy_exact (num_layers_unfrozen : Z) (model : list block) :
  let len := length model in
  let k := if num_layers_unfrozen =? 0 then len
           else if num_layers_unfrozen >? 0
                then Z.to_nat (Z.max 0 (Z.of_nat len - num_layers_unfrozen))
                else 0%nat in
  gpt_blocks_to_freeze num_layers_unfrozen model = take k model
  /\ length (gpt_blocks_to_freeze num_layers_unfrozen model) = k
  /\ freeze_layers num_layers_unfrozen model
     = map (requires_grad_ false) (take k model) ++ drop k model
  /\ Forall frozen (take k (freeze_layers num_layers_unfrozen model))
  /\ drop k (freeze_layers num_layers_unfrozen model) = drop k model.
Proof.
  intros len k.
  change k with (frozen_count num_layers_unfrozen (length model)).
  clear k. set (k := frozen_count num_layers_unfrozen (length model)).
  assert (Hk : (k <= length model)%nat) by apply frozen_count_le.
  assert (Hsel : gpt_blocks_to_freeze num_layers_unfrozen model = take k model)
    by apply to_freeze_take.
  assert (Hrun : freeze_layers num_layers_unfrozen model
                 = map (requires_grad_ false) (take k model) ++ drop k model).
  { unfold freeze_layers. rewrite to_freeze_take, length_seq. fold k.
    rewrite take_seq_0 by done.
    rewrite fold_freeze_seq by (cbn; lia).
    by rewrite take_0, drop_0. }
  assert (Hlen : length (map (requires_grad_ false) (take k model)) = k)
    by (rewrite length_map, length_take; lia).
  split; [ done | ].
  split; [ rewrite Hsel, length_take; lia | ].
  split; [ done | ].
  rewrite Hrun. split.
  - rewrite take_app_length' by done.
    apply Forall_forall. intros m Hm.
    apply list_elem_of_fmap in Hm as (m0 & -> & _).
    unfold frozen, requires_grad_.
    apply Forall_forall. intros p Hp.
    by apply list_elem_of_fmap in Hp as (p0 & -> & _).
  - by rewrite drop_app_length'.
Qed.

Example freeze_two_of_three :
  let p := {| param_name := "w"; requires_grad := true |} in
  freeze_layers 2 [[p]; [p]; [p]]
  = [[{| param_name := "w"; requires_grad := false |}]; [p]; [p]].
Proof. reflexivity. Qed.

Example freeze_more_than_len :
  gpt_blocks_to_freeze 5 [1%nat; 2%nat; 3%nat] = [].
Proof. reflexivity. Qed.

End FreezeFacts.

(** ** The training loop *)

Module LearnFacts.
Import Py Learn LearnSpec.

Section WithCollaborators.

Context {W Batch Loss : Type}.
Variable env : collaborators W Batch Loss.
Variable cfg : settings.

Local Abbreviation state := (state W Batch).
Local Abbreviation outcome := (outcome W Batch).

(** *** Calls leave the counter alone and append to the log *)

Lemma run_iter_count c f (st : state) : iter_count (run c f st) = iter_count st.
Proof. reflexivity. Qed.

Lemma run_calls c f (st : state) :
  calls (run c f st) = calls st ++ [(iter_count st, c)].
Proof. reflexivity. Qed.

Lemma ask_iter_count {A} (f : W -> A * W) (st : state) :
  iter_count (snd (ask f st)) = iter_count st.
Proof. unfold ask. by destruct (f (world st)). Qed.

Lemma ask_calls {A} (f : W -> A * W) (st : state) :
  calls (snd (ask f st)) = calls st.
Proof. unfold ask. by destruct (f (world st)). Qed.

Lemma do_evaluate_iter_count (st : state) :
  iter_count (snd (do_evaluate env st)) = iter_count st.
Proof. unfold do_evaluate. by rewrite ask_iter_count. Qed.

Lemma do_evaluate_calls (st : state) :
  calls (snd (do_evaluate env st)) = calls st ++ [(iter_count st, CEvaluate)].
Proof. unfold do_evaluate. by rewrite ask_calls. Qed.

Lemma gradient_step_iter_count batch (st : state) :
  iter_count (snd (gradient_step env batch st)) = iter_count st + 1.
Proof.
  unfold gradient_step.
  repeat match goal with
         | |- context [ask ?f ?s] =>
           let H := fresh in
           pose proof (ask_iter_count f s) as H;
           destruct (ask f s); cbn [snd] in H
         end.
  cbn in *. congruence.
Qed.

Lemma gradient_step_calls batch (st : state) :
  calls (snd (gradient_step env batch st))
  = calls st ++ gradient_calls batch (iter_count st).
Proof.
  unfold gradient_step.
  repeat match goal with
         | |- context [ask ?f ?s] =>
           let H := fresh in let H' := fresh in
           pose proof (ask_iter_count f s) as H;
           pose proof (ask_calls f s) as H';
           destruct (ask f s); cbn [snd] in H, H'
         end.
  cbn in *.
  repeat match goal with H : calls _ = _ |- _ => rewrite H; clear H end.
  repeat match goal with H : iter_count _ = _ |- _ => rewrite H; clear H end.
  cbn. rewrite <- !app_assoc. reflexivity.
Qed.

Lemma evaluate_and_log_iter_count stats ft bt (st : state) :
  iter_count (evaluate_and_log env stats ft bt st) = iter_count st.
Proof.
  unfold evaluate_and_log.
  pose proof (do_evaluate_iter_count st) as H.
  destruct (do_evaluate env st). cbn in *. done.
Qed.

Lemma evaluate_and_log_calls stats ft bt (st : state) :
  calls (evaluate_and_log env stats ft bt st)
  = calls st ++ [(iter_count st, CEvaluate); (iter_count st, CLog)].
Proof.
  unfold evaluate_and_log.
  pose proof (do_evaluate_iter_count st) as H.
  pose proof (do_evaluate_calls st) as H'.
  destruct (do_evaluate env st). cbn in *.
  rewrite H', H, <- app_assoc. done.
Qed.

(** *** One pass through the body of the innermost loop *)

Lemma update_spec batch (st : state) :
  let k := iter_count st in
  let o := update env cfg batch st in
  iter_count (final_state o) = k + 1
  /\ calls (final_state o) = calls st ++ update_calls cfg batch k
  /\ match o with
     | Normal _ =>
       checkpoint_interval cfg <> 0 /\ eval_interval cfg <> 0
       /\ k + 1 < total_steps cfg
     | Return v st' =>
       checkpoint_interval cfg <> 0 /\ eval_interval cfg <> 0
       /\ total_steps cfg <= k + 1
       /\ exists st_t : state,
            iter_count st_t = k + 1
            /\ do_evaluate env (do_save env st_t) = (v, st')
            /\ calls st' = calls st_t ++ [(k + 1, CSave); (k + 1, CEvaluate)]
     | Raise e _ =>
       e = ZeroDivisionError
       /\ (checkpoint_interval cfg = 0 \/ eval_interval cfg = 0)
     end.
Proof.
  intros k o. subst o. unfold update, update_calls.
  pose proof (gradient_step_iter_count batch st) as Hk.
  pose proof (gradient_step_calls batch st) as Hc.
  destruct (gradient_step env batch st) as [[[stats ft] bt] st1].
  cbn [snd] in Hk, Hc. fold k in Hk, Hc. rewrite Hk. unfold mod_.
  destruct (Z.eqb_spec (checkpoint_interval cfg) 0) as [Hcp | Hcp].
  { cbn [final_state]. rewrite app_nil_r. auto. }
  set (st2 := if (k + 1) mod checkpoint_interval cfg =? 0
              then do_save env st1 else st1).
  assert (Hk2 : iter_count st2 = k + 1)
    by (subst st2; destruct ((k + 1) mod checkpoint_interval cfg =? 0); done).
  assert (Hc2 : calls st2 = calls st1 ++
            (if (k + 1) mod checkpoint_interval cfg =? 0
             then [(k + 1, CSave)] else [])).
  { subst st2. destruct ((k + 1) mod checkpoint_interval cfg =? 0).
    - unfold do_save. by rewrite run_calls, Hk.
    - by rewrite app_nil_r. }
  clearbody st2. rewrite Hk2.
  destruct (Z.eqb_spec (eval_interval cfg) 0) as [Hev | Hev].
  { cbn [final_state]. rewrite app_nil_r, Hc2, Hc, <- app_assoc. auto. }
  set (st3 := if (k + 1) mod eval_interval cfg =? 0
              then evaluate_and_log env stats ft bt st2 else st2).
  assert (Hk3 : iter_count st3 = k + 1).
  { subst st3. destruct ((k + 1) mod eval_interval cfg =? 0); [ | exact Hk2 ].
    by rewrite evaluate_and_log_iter_count. }
  assert (Hc3 : calls st3 = calls st2 ++
            (if (k + 1) mod eval_interval cfg =? 0
             then [(k + 1, CEvaluate); (k + 1, CLog)] else [])).
  { subst st3. destruct ((k + 1) mod eval_interval cfg =? 0).
    - by rewrite evaluate_and_log_calls, Hk2.
    - by rewrite app_nil_r. }
  clearbody st3.
  set (st4 := run CTbar (tbar_update env stats) st3).
  assert (Hk4 : iter_count st4 = k + 1) by done.
  assert (Hc4 : calls st4 = calls st3 ++ [(k + 1, CTbar)])
    by (subst st4; by rewrite run_calls, Hk3).
  clearbody st4. rewrite Hk4.
  assert (Hall : calls st4 = calls st ++ gradient_calls batch k ++
            (if (k + 1) mod checkpoint_interval cfg =? 0
             then [(k + 1, CSave)] else []) ++
            (if (k + 1) mod eval_interval cfg =? 0
             then [(k + 1, CEvaluate); (k + 1, CLog)] else []) ++
            [(k + 1, CTbar)])
    by (rewrite Hc4, Hc3, Hc2, Hc, <- !app_assoc; done).
  destruct (Z.geb_spec (k + 1) (total_steps cfg)) as [Hge | Hlt].
  - pose proof (do_evaluate_iter_count (do_save env st4)) as Hk5.
    pose proof (do_evaluate_calls (do_save env st4)) as Hc5.
    destruct (do_evaluate env (do_save env st4)) as [results st5] eqn:Heval.
    cbn [snd final_state] in *.
    unfold do_save in Hk5, Hc5. rewrite run_iter_count in Hk5, Hc5.
    rewrite run_calls, Hk4 in Hc5. rewrite <- app_assoc in Hc5. cbn [app] in Hc5.
    split; [ congruence | ].
    split.
    + rewrite Hc5, Hall, <- !app_assoc. done.
    + do 3 (split; [ done | ]). exists st4. done.
  - cbn [final_state]. split; [ done | ]. split.
    + rewrite Hall, !app_nil_r. done.
    + done.
Qed.

(** *** Splitting the loops *)

Lemma updates_loop_add batch (n1 n2 : nat) (st : state) :
  updates_loop env cfg batch (n1 + n2) st
  = match updates_loop env cfg batch n1 st with
    | Normal st1 => updates_loop env cfg batch n2 st1
    | o => o
    end.
Proof.
  revert st. induction n1 as [ | n1 IH ]; intros st; cbn; [ done | ].
  destruct (update env cfg batch st); auto.
Qed.

Lemma batches_loop_app (bs1 bs2 : list Batch) (st : state) :
  batches_loop env cfg (bs1 ++ bs2) st
  = match batches_loop env cfg bs1 st with
    | Normal st1 => batches_loop env cfg bs2 st1
    | o => o
    end.
Proof.
  revert st. induction bs1 as [ | b bs1 IH ]; intros st; cbn; [ done | ].
  destruct (batch_body env cfg b st); auto.
Qed.

Lemma epochs_loop_add (n1 n2 : nat) (st : state) :
  epochs_loop env cfg (n1 + n2) st
  = match epochs_loop env cfg n1 st with
    | Normal st1 => epochs_loop env cfg n2 st1
    | o => o
    end.
Proof.
  revert st. induction n1 as [ | n1 IH ]; intros st; cbn; [ done | ].
  destruct (epoch_body env cfg st); auto.
Qed.

(** *** A Hoare rule for each loop *)

Lemma updates_loop_triple batch Qr Qx (n : nat) :
  forall Inv : nat -> state -> Prop,
  (forall i, (i < n)%nat ->
     triple (Inv i) (update env cfg batch) (Inv (S i)) Qr Qx) ->
  triple (Inv 0%nat) (updates_loop env cfg batch n) (Inv n) Qr Qx.
Proof.
  induction n as [ | n IH ]; intros Inv Hbody st Hst; cbn; [ done | ].
  pose proof (Hbody 0%nat ltac:(lia) st Hst) as H0.
  destruct (update env cfg batch st) as [st1 | | ]; try done.
  apply (IH (fun i => Inv (S i))); [ | done ].
  intros i Hi. apply Hbody. lia.
Qed.

Lemma batches_loop_triple Qr Qx (bs : list Batch) :
  forall Inv : nat -> state -> Prop,
  (forall i b, bs !! i = Some b ->
     triple (Inv i) (batch_body env cfg b) (Inv (S i)) Qr Qx) ->
  triple (Inv 0%nat) (batches_loop env cfg bs) (Inv (length bs)) Qr Qx.
Proof.
  induction bs as [ | b bs IH ]; intros Inv Hbody st Hst; cbn; [ done | ].
  pose proof (Hbody 0%nat b eq_refl st Hst) as H0.
  destruct (batch_body env cfg b st) as [st1 | | ]; try done.
  apply (IH (fun i => Inv (S i))); [ | done ].
  intros i b' Hi. by apply Hbody.
Qed.

Lemma epochs_loop_triple Qr Qx (n : nat) :
  forall Inv : nat -> state -> Prop,
  (forall i, (i < n)%nat ->
     triple (Inv i) (epoch_body env cfg) (Inv (S i)) Qr Qx) ->
  triple (Inv 0%nat) (epochs_loop env cfg n) (Inv n) Qr Qx.
Proof.
  induction n as [ | n IH ]; intros Inv Hbody st Hst; cbn; [ done | ].
  pose proof (Hbody 0%nat ltac:(lia) st Hst) as H0.
  destruct (epoch_body env cfg st) as [st1 | | ]; try done.
  apply (IH (fun i => Inv (S i))); [ | done ].
  intros i Hi. apply Hbody. lia.
Qed.

Lemma batch_body_triple batch P Qm Qn Qr Qx :
  triple P (updates_loop env cfg batch (Z.to_nat (n_updates_per_batch cfg)))
         Qm Qr Qx ->
  (forall st, Qm st ->
     Qn (run CPostBackward (post_backward_callback env) st)) ->
  triple P (batch_body env cfg batch) Qn Qr Qx.
Proof.
  intros Hloop Hhook st Hst. unfold batch_body.
  specialize (Hloop st Hst).
  destruct (updates_loop env cfg batch _ st); auto.
Qed.

Lemma epoch_body_triple P Qm Qn Qr Qx :
  (forall bs,
     triple (fun st => P st /\ train_dataloader env (world st) = bs)
            (batches_loop env cfg bs) (Qm bs) Qr Qx) ->
  (forall bs st, Qm bs st ->
     Qn (run CPostEpoch (post_epoch_callback env) st)) ->
  triple P (epoch_body env cfg) Qn Qr Qx.
Proof.
  intros Hloop Hhook st Hst. unfold epoch_body.
  specialize (Hloop _ st (conj Hst eq_refl)).
  destruct (batches_loop env cfg _ st); eauto.
Qed.

(** *** Counting updates, checkpoints and evaluations *)

Lemma steps_of_app (p : call Batch -> bool) (l1 l2 : list (Z * call Batch)) :
  steps_of p (l1 ++ l2) = steps_of p l1 ++ steps_of p l2.
Proof. unfold steps_of. by rewrite List.filter_app, map_app. Qed.

Lemma cadence_steps_S (interval : Z) (n : nat) :
  cadence_steps interval (S n)
  = cadence_steps interval n
    ++ (if Z.of_nat (S n) mod interval =? 0 then [Z.of_nat (S n)] else []).
Proof.
  unfold cadence_steps. rewrite seq_S, map_app, List.filter_app. cbn [map List.filter].
  replace (1 + n)%nat with (S n) by lia.
  by destruct (Z.of_nat (S n) mod interval =? 0).
Qed.

Section NonzeroIntervals.

Hypothesis Hcp : checkpoint_interval cfg <> 0.
Hypothesis Hev : eval_interval cfg <> 0.

Lemma update_calls_steps (batch : Batch) (k : Z) :
  steps_of is_loss (update_calls cfg batch k) = [k]
  /\ steps_of is_save (update_calls cfg batch k)
     = (if (k + 1) mod checkpoint_interval cfg =? 0 then [k + 1] else [])
       ++ (if k + 1 >=? total_steps cfg then [k + 1] else [])
  /\ steps_of is_evaluate (update_calls cfg batch k)
     = (if (k + 1) mod eval_interval cfg =? 0 then [k + 1] else [])
       ++ (if k + 1 >=? total_steps cfg then [k + 1] else []).
Proof.
  unfold update_calls, mod_.
  destruct (Z.eqb_spec (checkpoint_interval cfg) 0) as [ | _ ]; [ done | ].
  destruct (Z.eqb_spec (eval_interval cfg) 0) as [ | _ ]; [ done | ].
  destruct ((k + 1) mod checkpoint_interval cfg =? 0),
           ((k + 1) mod eval_interval cfg =? 0),
           (k + 1 >=? total_steps cfg); done.
Qed.

Lemma update_counted (batch : Batch) (j n : Z) :
  j + 1 <= n ->
  triple (counted cfg j) (update env cfg batch)
         (counted cfg (j + 1)) (stopped env cfg n) (fun _ _ => False).
Proof.
  intros Hn st (Hj & Hrange & Hloss & Hsave & Heval).
  destruct (update_spec batch st) as (Hk & Hc & Hkind).
  destruct (update_calls_steps batch j) as (Uloss & Usave & Ueval).
  rewrite Hj in Hk, Hc, Hkind.
  assert (Hnat : Z.to_nat (j + 1) = S (Z.to_nat j)) by lia.
  assert (Hof : Z.of_nat (S (Z.to_nat j)) = j + 1) by lia.
  assert (Hseq : map Z.of_nat (seq 0 (S (Z.to_nat j)))
                 = map Z.of_nat (seq 0 (Z.to_nat j)) ++ [j])
    by (rewrite seq_S, map_app; cbn; do 2 f_equal; lia).
  unfold stop_step in *.
  destruct (update env cfg batch st) as [st' | v st' | e st'];
    cbn [final_state] in Hk, Hc.
  - destruct Hkind as (_ & _ & Hlt).
    destruct (Z.geb_spec (j + 1) (total_steps cfg)); [ lia | ].
    rewrite !app_nil_r in *.
    unfold counted, stop_step.
    rewrite Hc, !steps_of_app, Hloss, Hsave, Heval, Uloss, Usave, Ueval.
    rewrite Hnat, !cadence_steps_S, Hof, Hseq.
    repeat split; try done; lia.
  - destruct Hkind as (_ & _ & Hge & st_t & Ht1 & Ht2 & Ht3).
    destruct (Z.geb_spec (j + 1) (total_steps cfg)); [ | lia ].
    assert (Hstop : Z.max 1 (total_steps cfg) = j + 1) by lia.
    unfold stopped, stop_step. rewrite Hstop.
    rewrite Hc, !steps_of_app, Hloss, Hsave, Heval, Uloss, Usave, Ueval.
    rewrite Hnat, !cadence_steps_S, Hof, Hseq, !app_assoc.
    repeat split; try done.
    exists st_t. rewrite Hk. done.
  - destruct Hkind as (_ & [ ? | ? ]); done.
Qed.

Lemma run_counted c f (j : Z) (st : state) :
  is_loss c = false -> is_save c = false -> is_evaluate c = false ->
  counted cfg j st -> counted cfg j (run c f st).
Proof.
  intros Hl Hs He (Hj & Hrange & Hloss & Hsave & Heval).
  unfold counted.
  rewrite run_iter_count, run_calls, !steps_of_app, Hloss, Hsave, Heval.
  unfold steps_of. cbn [List.filter snd]. rewrite Hl, Hs, He. cbn [map].
  rewrite !app_nil_r. done.
Qed.

Lemma batch_body_counted (batch : Batch) (j n : Z) :
  let U := Z.of_nat (Z.to_nat (n_updates_per_batch cfg)) in
  j + U <= n ->
  triple (counted cfg j) (batch_body env cfg batch)
         (counted cfg (j + U)) (stopped env cfg n) (fun _ _ => False).
Proof.
  intros U Hn.
  apply batch_body_triple with (Qm := counted cfg (j + U)).
  - subst U.
    pose proof (updates_loop_triple batch (stopped env cfg n)
                  (fun _ _ => False) (Z.to_nat (n_updates_per_batch cfg))
                  (fun i => counted cfg (j + Z.of_nat i))) as Hloop.
    cbn beta in Hloop. rewrite Z.add_0_r in Hloop. apply Hloop.
    intros i Hi.
    replace (j + Z.of_nat (S i)) with (j + Z.of_nat i + 1) by lia.
    apply update_counted. lia.
  - intros st Hst. by apply run_counted.
Qed.

Lemma batches_loop_counted (bs : list Batch) (j n : Z) :
  let U := Z.of_nat (Z.to_nat (n_updates_per_batch cfg)) in
  j + Z.of_nat (length bs) * U <= n ->
  triple (counted cfg j) (batches_loop env cfg bs)
         (counted cfg (j + Z.of_nat (length bs) * U))
         (stopped env cfg n) (fun _ _ => False).
Proof.
  intros U Hn.
  pose proof (batches_loop_triple (stopped env cfg n) (fun _ _ => False)
                bs (fun i => counted cfg (j + Z.of_nat i * U))) as Hloop.
  cbn beta in Hloop. rewrite Z.mul_0_l, Z.add_0_r in Hloop. apply Hloop.
  intros i b Hi. apply lookup_lt_Some in Hi.
  replace (j + Z.of_nat (S i) * U) with (j + Z.of_nat i * U + U) by lia.
  apply batch_body_counted. fold U. subst U. nia.
Qed.

Lemma epochs_loop_counted (B : nat) (E : nat) :
  (forall w, length (train_dataloader env w) = B) ->
  let U := Z.of_nat (Z.to_nat (n_updates_per_batch cfg)) in
  let n := Z.of_nat E * Z.of_nat B * U in
  triple (counted cfg 0) (epochs_loop env cfg E)
         (counted cfg n) (stopped env cfg n) (fun _ _ => False).
Proof.
  intros HB U n.
  pose proof (epochs_loop_triple (stopped env cfg n) (fun _ _ => False)
                E (fun i => counted cfg (Z.of_nat i * Z.of_nat B * U))) as Hloop.
  cbn beta in Hloop. rewrite !Z.mul_0_l in Hloop. apply Hloop.
  intros i Hi.
  apply epoch_body_triple
    with (Qm := fun _ => counted cfg (Z.of_nat (S i) * Z.of_nat B * U)).
  - intros bs st (Hst & Hbs).
    assert (Hlen : length bs = B) by (rewrite <- Hbs; apply HB).
    replace (Z.of_nat (S i) * Z.of_nat B * U)
      with (Z.of_nat i * Z.of_nat B * U + Z.of_nat (length bs) * U)
      by (rewrite Hlen; lia).
    apply batches_loop_counted; [ | done ].
    fold U. rewrite Hlen. subst n U. nia.
  - intros bs st Hst. by apply run_counted.
Qed.

End NonzeroIntervals.

(** *** The whole of [learn] *)

Lemma learn_summary (B : nat) (w : W) :
  checkpoint_interval cfg <> 0 -> eval_interval cfg <> 0 ->
  (forall w, length (train_dataloader env w) = B) ->
  let n := Z.of_nat (Z.to_nat (epochs cfg)) * Z.of_nat B
           * Z.of_nat (Z.to_nat (n_updates_per_batch cfg)) in
  match learn env cfg w with
  | Normal st => counted cfg n st
  | Return v st => stopped env cfg n v st
  | Raise _ _ => False
  end.
Proof.
  intros Hcp Hev HB n. unfold learn.
  apply (epochs_loop_counted Hcp Hev B (Z.to_nat (epochs cfg)) HB).
  unfold counted, stop_step. cbn. repeat split; try done; lia.
Qed.

End WithCollaborators.









(** *** The hooks *)

Section Hooks.

Context {W Batch Loss : Type}.
Variable env : collaborators W Batch Loss.
Variable cfg : settings.

Local Abbreviation state := (state W Batch).

Lemma loss_and_hooks_app (l1 l2 : list (Z * call Batch)) :
  loss_and_hooks (l1 ++ l2) = loss_and_hooks l1 ++ loss_and_hooks l2.
Proof. unfold loss_and_hooks. by rewrite map_app, List.filter_app. Qed.

Lemma loss_and_hooks_update (batch : Batch) (k : Z) :
  loss_and_hooks (update_calls cfg batch k) = [CLoss batch].
Proof.
  unfold update_calls, mod_.
  destruct (checkpoint_interval cfg =? 0); [ done | ].
  destruct (eval_interval cfg =? 0),
           ((k + 1) mod checkpoint_interval cfg =? 0),
           ((k + 1) mod eval_interval cfg =? 0),
           (k + 1 >=? total_steps cfg); done.
Qed.

Lemma exhausted_tell e finished partial c f (st : state) :
  is_loss_or_hook c = true ->
  exhausted env cfg e finished partial st ->
  exhausted env cfg e finished (partial ++ [c]) (run c f st).
Proof.
  intros Hc (ebs & He & Hfrom & Hlog). exists ebs.
  split; [ done | ]. split; [ done | ].
  rewrite run_calls, loss_and_hooks_app, Hlog.
  unfold loss_and_hooks at 1. cbn [map snd List.filter]. rewrite Hc.
  by rewrite <- !app_assoc.
Qed.

Lemma update_exhausted (E e r : nat) (finished rest : list Batch) (batch : Batch) :
  (e < E)%nat -> (r < Z.to_nat (n_updates_per_batch cfg))%nat ->
  from_dataloader env (finished ++ batch :: rest) ->
  triple (exhausted env cfg e finished (repeat (CLoss batch) r))
         (update env cfg batch)
         (exhausted env cfg e finished (repeat (CLoss batch) (S r)))
         (fun _ => cut_short env cfg E) (fun _ => cut_short env cfg E).
Proof.
  intros He Hr Hfrom st (ebs & Hlen & Hebs & Hlog).
  destruct (update_spec env cfg batch st) as (_ & Hc & _).
  assert (Hnext : exhausted env cfg e finished (repeat (CLoss batch) (S r))
                    (final_state (update env cfg batch st))).
  { exists ebs. split; [ done | ]. split; [ done | ].
    rewrite Hc, loss_and_hooks_app, Hlog, loss_and_hooks_update.
    rewrite <- !app_assoc. do 2 f_equal.
    change (repeat (CLoss batch) (S r))
      with (CLoss batch :: repeat (CLoss batch) r).
    by rewrite repeat_cons. }
  destruct (update env cfg batch st) as [st' | v st' | x st'];
    cbn [final_state] in Hnext; [ done | | ];
    exists e, finished, batch, rest, (S r);
    (split; [ done | ]); (split; [ lia | ]); done.
Qed.

Lemma batch_body_exhausted (E e i : nat) (bs : list Batch) (batch : Batch) :
  (e < E)%nat -> from_dataloader env bs -> bs !! i = Some batch ->
  triple (exhausted env cfg e (take i bs) [])
         (batch_body env cfg batch)
         (exhausted env cfg e (take (S i) bs) [])
         (fun _ => cut_short env cfg E) (fun _ => cut_short env cfg E).
Proof.
  intros He Hbs Hi.
  apply batch_body_triple
    with (Qm := exhausted env cfg e (take i bs)
                  (repeat (CLoss batch) (Z.to_nat (n_updates_per_batch cfg)))).
  - apply (updates_loop_triple env cfg batch _ _ _
             (fun r => exhausted env cfg e (take i bs) (repeat (CLoss batch) r))).
    intros r Hr. apply update_exhausted with (rest := drop (S i) bs); try done.
    by rewrite <- (take_drop_middle _ _ _ Hi) in Hbs.
  - intros st Hst.
    apply (exhausted_tell _ _ _ CPostBackward (post_backward_callback env)) in Hst;
      [ | done ].
    destruct Hst as (ebs & Hlen & Hebs & Hlog). exists ebs.
    split; [ done | ]. split; [ done | ].
    rewrite Hlog, (take_S_r _ _ _ Hi), map_app, concat_app. cbn [map concat].
    unfold batch_shape. by rewrite ?app_nil_r, <- ?app_assoc.
Qed.

Lemma epoch_body_exhausted (E e : nat) :
  (e < E)%nat ->
  triple (exhausted env cfg e [] [])
         (epoch_body env cfg)
         (exhausted env cfg (S e) [] [])
         (fun _ => cut_short env cfg E) (fun _ => cut_short env cfg E).
Proof.
  intros He.
  apply epoch_body_triple
    with (Qm := fun bs st => from_dataloader env bs
                             /\ exhausted env cfg e bs [] st).
  - intros bs st (Hst & Hbs).
    assert (Hfrom : from_dataloader env bs) by (by exists (world st)).
    pose proof (batches_loop_triple env cfg
                  (fun _ => cut_short env cfg E) (fun _ => cut_short env cfg E)
                  bs (fun i st => from_dataloader env bs
                                  /\ exhausted env cfg e (take i bs) [] st))
      as Hloop.
    cbn beta in Hloop. rewrite firstn_all in Hloop.
    apply Hloop; [ | by rewrite take_0 ].
    intros i b Hi st' (_ & Hst').
    pose proof (batch_body_exhausted E e i bs b He Hfrom Hi st' Hst') as Hb.
    destruct (batch_body env cfg b st'); done.
  - intros bs st (Hfrom & Hst).
    apply (exhausted_tell _ _ _ CPostEpoch (post_epoch_callback env)) in Hst;
      [ | done ].
    destruct Hst as (ebs & Hlen & Hebs & Hlog). exists (ebs ++ [bs]).
    split; [ rewrite length_app; cbn; lia | ].
    split; [ apply Forall_app; split; [ done | by constructor ] | ].
    rewrite Hlog, map_app, concat_app. cbn [map concat app].
    unfold epoch_shape. by rewrite ?app_nil_r, <- ?app_assoc.
Qed.

Lemma learn_exhausted (w : W) :
  match learn env cfg w with
  | Normal st => exhausted env cfg (Z.to_nat (epochs cfg)) [] [] st
  | Return _ st | Raise _ st => cut_short env cfg (Z.to_nat (epochs cfg)) st
  end.
Proof.
  unfold learn.
  pose proof (epochs_loop_triple env cfg
                (fun _ => cut_short env cfg (Z.to_nat (epochs cfg)))
                (fun _ => cut_short env cfg (Z.to_nat (epochs cfg)))
                (Z.to_nat (epochs cfg))
                (fun e => exhausted env cfg e [] [])) as Hloop.
  apply Hloop.
  - intros e He. by apply epoch_body_exhausted.
  - exists []. done.
Qed.

End Hooks.


Example hooks_of_a_full_run :
  loss_and_hooks
    (calls (final_state (learn (Idle.trainer [0; 1]%nat)
                           {| epochs := 2; n_updates_per_batch := 2;
                              checkpoint_interval := 5; eval_interval := 10;
                              total_steps := 100 |} tt)))
  = [CLoss 0%nat; CLoss 0%nat; CPostBackward;
     CLoss 1%nat; CLoss 1%nat; CPostBackward; CPostEpoch;
     CLoss 0%nat; CLoss 0%nat; CPostBackward;
     CLoss 1%nat; CLoss 1%nat; CPostBackward; CPostEpoch].
Proof. vm_compute. reflexivity. Qed.

End LearnFacts.

(** ** [generate] and [evaluate] *)

Module EvalFacts.
Import Py Tensor Eval EvalSpec.

Section WithCollaborators.

Context {W V : Type}.
Variable self : trainer W V.

Local Abbreviation state := (state W V).
Local Abbreviation M := (@M W V).

(** *** The monad *)

Lemma bind_Ok {A B} (c : M A) (f : A -> M B) (st st2 : state) (b : B) :
  (c ≫= f) st = Ok b st2 ->
  exists a st1, c st = Ok a st1 /\ f a st1 = Ok b st2.
Proof.
  unfold mbind, M_bind. destruct (c st) as [a st1 | e st1]; [ | done ].
  intros H. by exists a, st1.
Qed.

Lemma bind_Ok_intro {A B} (c : M A) (f : A -> M B) (st st1 : state) (a : A) :
  c st = Ok a st1 -> (c ≫= f) st = f a st1.
Proof. unfold mbind, M_bind. by intros ->. Qed.

Lemma ret_bind {A B} (a : A) (f : A -> M B) (st : state) :
  (mret a ≫= f) st = f a st.
Proof. done. Qed.

Lemma raise_bind {A B} (e : exn) (f : A -> M B) (st : state) :
  (raise e ≫= f) st = Err e st.
Proof. done. Qed.

Lemma tell_bind {B} (c : call V) (f : unit -> M B) (st : state) :
  (tell c ≫= f) st
  = f tt {| world := world st; grad_enabled := grad_enabled st;
            log := log st ++ [c] |}.
Proof. done. Qed.

Lemma ask_bind {A B} (g : W -> A * W) (f : A -> M B) (st : state) :
  (ask g ≫= f) st
  = f (fst (g (world st)))
      {| world := snd (g (world st));
         grad_enabled := grad_enabled st; log := log st |}.
Proof. unfold mbind, M_bind, ask. by destruct (g (world st)). Qed.

Lemma ask_Ok {A} (f : W -> A * W) (st : state) :
  ask f st = Ok (fst (f (world st)))
               {| world := snd (f (world st));
                  grad_enabled := grad_enabled st; log := log st |}.
Proof. unfold ask. by destruct (f (world st)). Qed.

(** *** [generate] *)

Lemma generate_Ok (ids : tensor) (mask : option tensor)
    (kwargs : gmap string V) (st : state) :
  (kwargs ∪ generate_kwargs self) !! "input_ids" = None ->
  (kwargs ∪ generate_kwargs self) !! "attention_mask" = None ->
  let merged := kwargs ∪ generate_kwargs self in
  generate self ids mask kwargs st
  = Ok (fst (model_generate self ids mask merged (world st)))
       {| world := snd (model_generate self ids mask merged (world st));
          grad_enabled := grad_enabled st;
          log := log st ++ [CModelGenerate ids mask merged false] |}.
Proof.
  intros H1 H2 merged. subst merged.
  unfold generate, no_grad, call_model_generate. rewrite H1, H2.
  unfold mbind, M_bind, tell. rewrite ask_Ok. done.
Qed.

Lemma generate_TypeError (ids : tensor) (mask : option tensor)
    (kwargs : gmap string V) (st : state) :
  is_Some ((kwargs ∪ generate_kwargs self) !! "input_ids")
  \/ is_Some ((kwargs ∪ generate_kwargs self) !! "attention_mask") ->
  generate self ids mask kwargs st = Err TypeError st.
Proof.
  intros H. unfold generate, no_grad, call_model_generate.
  destruct ((kwargs ∪ generate_kwargs self) !! "input_ids") eqn:E1;
    destruct ((kwargs ∪ generate_kwargs self) !! "attention_mask") eqn:E2;
    try (destruct st; done).
  destruct H as [ [? ?] | [? ?] ]; done.
Qed.

End WithCollaborators.

(** *** Calls a computation does not make *)

Section Keeps.

Context {W V X : Type}.
Variable self : trainer W V.
Variable sel : call V -> option X.

Local Abbreviation state := (state W V).
Local Abbreviation M := (@M W V).

Lemma final_bind {A B} (c : M A) (f : A -> M B) (st : state) :
  final ((c ≫= f) st)
  = match c st with
    | Ok a st1 => final (f a st1)
    | Err _ st1 => st1
    end.
Proof. unfold mbind, M_bind. by destruct (c st). Qed.

Lemma keeps_bind {A B} (c : M A) (f : A -> M B) :
  keeps sel c -> (forall a, keeps sel (f a)) -> keeps sel (c ≫= f).
Proof.
  intros Hc Hf st. rewrite final_bind. specialize (Hc st).
  destruct (c st) as [a st1 | e st1]; cbn [final] in Hc; [ | done ].
  by rewrite Hf.
Qed.

Lemma keeps_ret {A} (a : A) : keeps sel (mret a : M A).
Proof. by intros st. Qed.

Lemma keeps_raise {A} (e : exn) : keeps sel (raise e : M A).
Proof. by intros st. Qed.

Lemma keeps_ask {A} (f : W -> A * W) : keeps sel (ask f : M A).
Proof. intros st. by rewrite ask_Ok. Qed.

Lemma keeps_tell (c : call V) : sel c = None -> keeps sel (tell c : M unit).
Proof.
  intros Hc st. unfold tell. cbn. rewrite omap_app. cbn. rewrite Hc.
  by rewrite app_nil_r.
Qed.

Lemma keeps_first {A} (xs : list A) : keeps sel (first xs : M A).
Proof. destruct xs; [ apply keeps_raise | apply keeps_ret ]. Qed.

Lemma keeps_vstack (ts : list tensor) : keeps sel (torch_vstack ts : M tensor).
Proof.
  unfold torch_vstack. destruct (vstack ts); [ apply keeps_ret | apply keeps_raise ].
Qed.

Lemma keeps_generate ids mask kwargs :
  (forall i m k g, sel (CModelGenerate i m k g) = None) ->
  keeps sel (generate self ids mask kwargs).
Proof.
  intros Hsel st. unfold generate, no_grad, call_model_generate.
  destruct (_ !! "input_ids"); [ done | ].
  destruct (_ !! "attention_mask"); [ done | ].
  unfold mbind, M_bind, tell. rewrite ask_Ok. cbn.
  rewrite omap_app. cbn. by rewrite Hsel, app_nil_r.
Qed.

Lemma keeps_F_pad t amount value :
  (forall t a v, sel (CPad t a v) = None) ->
  keeps sel (F_pad t amount value : M tensor).
Proof.
  intros Hsel. unfold F_pad.
  apply keeps_bind; [ by apply keeps_tell | intros _ ].
  destruct (pad_right t amount value); [ apply keeps_ret | apply keeps_raise ].
Qed.

Lemma keeps_sample_loop (batches : list prompts) :
  (forall i m k g, sel (CModelGenerate i m k g) = None) ->
  (forall t a v, sel (CPad t a v) = None) ->
  forall acc, keeps sel (sample_loop self batches acc).
Proof.
  intros Hgen Hpad.
  induction batches as [ | batch batches IH ]; intros acc; cbn [sample_loop].
  - apply keeps_ret.
  - apply keeps_bind; [ destruct batch; by apply keeps_generate | intros out ].
    apply keeps_bind; [ by apply keeps_F_pad | intros p ]. apply IH.
Qed.

Hypothesis Hdecode : forall t, sel (CBatchDecode t) = None.
Hypothesis Hmetric : forall s, sel (CMetricFn s) = None.
Hypothesis Hprint : sel CPrint = None.

Lemma keeps_decode_samples (t : tensor) : keeps sel (decode_samples self t).
Proof.
  unfold decode_samples. destruct (self_tokenizer self).
  - apply keeps_bind; [ by apply keeps_tell | intros _ ].
    apply keeps_bind; [ apply keeps_first | intros _; apply keeps_ret ].
  - apply keeps_bind; [ apply keeps_first | intros _; apply keeps_ret ].
Qed.

Lemma keeps_add_metrics (s : samples) (tb : table) :
  keeps sel (add_metrics self s tb).
Proof.
  unfold add_metrics. destruct (metric_fn self); [ | apply keeps_ret ].
  apply keeps_bind; [ apply keeps_ask | intros t0 ].
  apply keeps_bind; [ by apply keeps_tell | intros _ ].
  apply keeps_bind; [ apply keeps_ask | intros metrics ].
  apply keeps_bind; [ apply keeps_ask | intros t1 ].
  apply keeps_ret.
Qed.

Lemma keeps_table_end (tb : table) :
  keeps sel (_ ← first (zip_star (columns_data tb));
             _ ← tell CPrint;
             mret (<["samples" := VTable (columns tb) (zip_star (columns_data tb))]>
                     (stats tb)) : M (gmap string value)).
Proof.
  apply keeps_bind; [ apply keeps_first | intros _ ].
  apply keeps_bind; [ by apply keeps_tell | intros _; apply keeps_ret ].
Qed.

Hypothesis Hreward : forall s, sel (CRewardFn s) = None.

Lemma keeps_add_reward (s : samples) (tb : table) :
  keeps sel (add_reward self s tb).
Proof.
  unfold add_reward. destruct (reward_fn self); [ | apply keeps_ret ].
  apply keeps_bind; [ by apply keeps_tell | intros _ ].
  apply keeps_bind; [ apply keeps_ask | intros rewards ].
  apply keeps_bind; [ by apply keeps_tell | intros _; apply keeps_ret ].
Qed.

Lemma keeps_on_main_process (st : gmap string value) (gathered : tensor) :
  keeps sel (on_main_process self st gathered).
Proof.
  unfold on_main_process.
  apply keeps_bind; [ apply keeps_decode_samples | intros [s data] ].
  apply keeps_bind; [ apply keeps_add_reward | intros tb ].
  apply keeps_bind; [ apply keeps_add_metrics | intros tb' ].
  apply keeps_table_end.
Qed.

End Keeps.

(** *** The sampling loop of [evaluate] *)

Section Sampling.

Context {W V : Type}.
Variable self : trainer W V.

Local Abbreviation state := (state W V).

Hypothesis Hids : generate_kwargs self !! "input_ids" = None.
Hypothesis Hmask : generate_kwargs self !! "attention_mask" = None.
Hypothesis Hlen : 0 < max_length self.

Lemma pad_right_to (t : tensor) (v : Z) :
  exists p, brought_to (max_length self) v t p.
Proof.
  unfold brought_to, pad_right.
  destruct (Z.ltb_spec (Z.of_nat (width t) + (max_length self - Z.of_nat (width t))) 0)
    as [ Hneg | _ ]; [ lia | ].
  replace (Z.of_nat (width t) + (max_length self - Z.of_nat (width t)))
    with (max_length self) by lia.
  eexists. split; [ done | ]. cbn. split; [ done | ]. split; [ | done ].
  unfold wf. cbn. intros Hwf.
  apply Forall_map, (Forall_impl _ _ _ Hwf). intros row Hrow. cbn.
  rewrite length_take, length_app, repeat_length, Hrow. lia.
Qed.

Lemma pad_calls_app (l1 l2 : list (call V)) :
  pad_calls (l1 ++ l2) = pad_calls l1 ++ pad_calls l2.
Proof. unfold pad_calls. apply omap_app. Qed.

Lemma sample_loop_spec (batches : list prompts) :
  forall (acc : list tensor) (st : state),
  exists (gens padded : list tensor) (st' : state),
    sample_loop self batches acc st = Ok (acc ++ padded) st'
    /\ length gens = length batches
    /\ Forall (model_output self) gens
    /\ Forall2 (brought_to (max_length self) (pad_token self)) gens padded
    /\ pad_calls (log st')
       = pad_calls (log st)
         ++ map (fun t => (t, max_length self - Z.of_nat (width t), pad_token self))
                gens
    /\ grad_enabled st' = grad_enabled st.
Proof.
  induction batches as [ | batch batches IH ]; intros acc st.
  - exists [], [], st. cbn. rewrite !app_nil_r. done.
  - cbn [sample_loop].
    set (ids := match batch with PromptTensor i | PromptDict i _ => i end).
    set (mask := match batch with PromptTensor _ => None | PromptDict _ m => m end).
    assert (Hgen : match batch with
                   | PromptTensor i => generate self i None ∅
                   | PromptDict i m => generate self i m ∅
                   end = generate self ids mask ∅) by (by destruct batch).
    rewrite Hgen.
    assert (H1 : ((∅ : gmap string V) ∪ generate_kwargs self) !! "input_ids" = None)
      by (by rewrite (left_id_L ∅ (∪))).
    assert (H2 : ((∅ : gmap string V) ∪ generate_kwargs self) !! "attention_mask" = None)
      by (by rewrite (left_id_L ∅ (∪))).
    rewrite (bind_Ok_intro _ _ _ _ _ (generate_Ok self ids mask ∅ st H1 H2)).
    set (out := fst (model_generate self ids mask (∅ ∪ generate_kwargs self) (world st))).
    set (st1 := {| world := _; grad_enabled := _; log := _ |}).
    destruct (pad_right_to (unwrap out) (pad_token self)) as [p Hp].
    pose proof Hp as (Hpad & _).
    unfold F_pad. unfold mbind at 1, M_bind at 1.
    unfold mbind at 1, M_bind at 1, tell. rewrite Hpad.
    unfold mret at 1, M_ret at 1.
    set (st2 := {| world := world st1; grad_enabled := _; log := _ |}).
    destruct (IH (acc ++ [p]) st2) as (gens & padded & st' & Hrun & Hl & Hout & Hall & Hlog & Hgrad).
    exists (unwrap out :: gens), (p :: padded), st'.
    split; [ rewrite Hrun, <- app_assoc; done | ].
    split; [ cbn; lia | ].
    split; [ constructor; [ subst out; by eexists _, _, _, _ | done ] | ].
    split; [ by constructor | ].
    split; [ | rewrite Hgrad; done ].
    rewrite Hlog. subst st2 st1. cbn [log].
    rewrite !pad_calls_app. cbn. rewrite app_nil_r, <- app_assoc. done.
Qed.

End Sampling.

Lemma brought_to_wider (L v : Z) (t p : tensor) :
  brought_to L v t p -> wf t -> Z.of_nat (width t) <= L ->
  rows p = map (fun row => row ++ repeat v (Z.to_nat (L - Z.of_nat (width t)))) (rows t).
Proof.
  intros (_ & _ & _ & Hrows) Hwf Hle. rewrite Hrows.
  apply Forall_fmap_ext_1, (Forall_impl _ _ _ Hwf). intros row Hrow. cbn beta.
  apply take_ge. rewrite length_app, repeat_length, Hrow. lia.
Qed.

Lemma brought_to_narrower (L v : Z) (t p : tensor) :
  brought_to L v t p -> Z.of_nat (width t) >= L ->
  rows p = map (take (Z.to_nat L)) (rows t).
Proof.
  intros (_ & _ & _ & Hrows) Hge. rewrite Hrows.
  replace (Z.to_nat (L - Z.of_nat (width t))) with 0%nat by lia.
  apply map_ext. intros row. cbn. by rewrite app_nil_r.
Qed.

Lemma vstack_same_width (n : nat) (ts : list tensor) :
  Forall (fun p => width p = n) ts -> ts <> [] ->
  vstack ts = Some {| width := n; rows := concat (map rows ts) |}.
Proof.
  intros Hall Hne. destruct ts as [ | t ts ]; [ done | ].
  apply Forall_cons in Hall as (Ht & Hts). unfold vstack.
  assert (Hok : forallb (fun t' => Nat.eqb (width t') (width t)) ts = true).
  { apply forallb_forall. intros t' Hin.
    apply Nat.eqb_eq. rewrite Ht.
    rewrite Forall_forall in Hts. apply Hts. by apply list_elem_of_In. }
  by rewrite Hok, Ht.
Qed.

Section Sampled.

Context {W V : Type}.
Variable self : trainer W V.

Local Abbreviation state := (state W V).

Hypothesis Hids : generate_kwargs self !! "input_ids" = None.
Hypothesis Hmask : generate_kwargs self !! "attention_mask" = None.
Hypothesis Hlen : 0 < max_length self.

(** [evaluate] up to the stacking: the gathered tensor is asked for
    unless there is nothing to stack. *)
Lemma evaluate_sampling (st : state) :
  let st0 := {| world := snd (time self (world st));
                grad_enabled := grad_enabled st; log := log st |} in
  exists (gens all : list tensor) (st1 : state),
    sample_loop self (eval_dataloader self) [] st0 = Ok all st1
    /\ length gens = length (eval_dataloader self)
    /\ Forall (model_output self) gens
    /\ Forall2 (brought_to (max_length self) (pad_token self)) gens all
    /\ pad_calls (log (final (evaluate self st)))
       = pad_calls (log st)
         ++ map (fun t => (t, max_length self - Z.of_nat (width t), pad_token self))
                gens
    /\ match vstack all with
       | None => gather_calls (log (final (evaluate self st))) = gather_calls (log st)
       | Some stacked =>
         gather_calls (log (final (evaluate self st)))
         = gather_calls (log st) ++ [stacked]
       end.
Proof.
  intros st0.
  destruct (sample_loop_spec self Hids Hmask Hlen (eval_dataloader self) [] st0)
    as (gens & all & st1 & Hrun & Hl & Hout & Hall & Hlog & _).
  cbn [app] in Hrun. exists gens, all, st1.
  do 4 (split; [ done | ]).
  pose proof (keeps_sample_loop self sel_gather (eval_dataloader self)
                ltac:(done) ltac:(done) [] st0) as Hg.
  rewrite Hrun in Hg. cbn [final] in Hg.
  unfold evaluate.
  rewrite ask_bind. fold st0.
  rewrite (bind_Ok_intro _ _ _ _ _ Hrun), ask_bind.
  set (st2 := {| world := _; grad_enabled := grad_enabled st1; log := log st1 |}).
  set (stats0 := <["generate_time" := _]> ∅).
  unfold torch_vstack.
  destruct (vstack all) as [stacked | ].
  - rewrite ret_bind, tell_bind, ask_bind.
    set (st3 := {| world := _; grad_enabled := _; log := _ ++ _ |}).
    set (st4 := {| world := _; grad_enabled := grad_enabled st3; log := log st3 |}).
    set (gathered := fst _).
    assert (Hrest : forall X (sel : call V -> option X),
              (forall t, sel (CBatchDecode t) = None) ->
              (forall s, sel (CMetricFn s) = None) ->
              sel CPrint = None ->
              (forall s, sel (CRewardFn s) = None) ->
              omap sel (log (final
                 ((if is_main_process self
                   then on_main_process self stats0 gathered
                   else mret stats0) st4)))
              = omap sel (log st4)).
    { intros X sel H1 H2 H3 H4. destruct (is_main_process self).
      - by apply keeps_on_main_process.
      - done. }
    unfold pad_calls, gather_calls.
    rewrite !Hrest by done. subst st4 st3 st2. cbn [log].
    rewrite !omap_app. cbn. rewrite app_nil_r.
    split; [ exact Hlog | by rewrite Hg ].
  - cbn. split; [ exact Hlog | exact Hg ].
Qed.

End Sampled.

(** C8, amended.  For every default mapping and every caller-supplied
    mapping neither of which binds [input_ids] or [attention_mask],
    [generate] invokes decoding exactly once, with the merge of the two
    mappings in which the caller's value wins on every key both bind, and
    with gradient tracking disabled during the call; the gradient mode
    the caller had is back when [generate] returns. *)
Theorem generate_merges_and_disables_grad {W V : Type} (self : trainer W V)
    (ids : tensor) (mask : option tensor) (kwargs : gmap string V)
    (st : state W V) :
  generate_kwargs self !! "input_ids" = None ->
  generate_kwargs self !! "attention_mask" = None ->
  kwargs !! "input_ids" = None ->
  kwargs !! "attention_mask" = None ->
  exists (merged : gmap string V) (out : generated) (st' : state W V),
    generate self ids mask kwargs st = Ok out st'
    /\ log st' = log st ++ [CModelGenerate ids mask merged false]
    /\ grad_enabled st' = grad_enabled st
    /\ (out, world st') = model_generate self ids mask merged (world st)
    /\ (forall k v, kwargs !! k = Some v -> merged !! k = Some v)
    /\ (forall k, kwargs !! k = None -> merged !! k = generate_kwargs self !! k).
Proof.
  intros Hd1 Hd2 Hk1 Hk2.
  assert (H1 : (kwargs ∪ generate_kwargs self) !! "input_ids" = None)
    by (apply lookup_union_None; done).
  assert (H2 : (kwargs ∪ generate_kwargs self) !! "attention_mask" = None)
    by (apply lookup_union_None; done).
  eexists _, _, _. split; [ by apply generate_Ok | ]. cbn.
  split; [ done | ]. split; [ done | ].
  split; [ by destruct (model_generate _ _ _ _ _) | ].
  split.
  - intros k v Hk. by apply lookup_union_Some_l.
  - intros k Hk. by apply lookup_union_r.
Qed.

Lemma generate_merges_and_disables_grad_witness :
  exists st',
    generate (Echo.trainer true None {["top_k" := 50; "max_new_tokens" := 8]} 20 [])
             Echo.three_prompts None {["top_k" := 5]} Echo.start
    = Ok (GenTensor Echo.three_prompts) st'
    /\ log st' = [CModelGenerate Echo.three_prompts None
                    {["top_k" := 5; "max_new_tokens" := 8]} false]
    /\ grad_enabled st' = true.
Proof.
  destruct (generate_merges_and_disables_grad
              (Echo.trainer true None {["top_k" := 50; "max_new_tokens" := 8]} 20 [])
              Echo.three_prompts None {["top_k" := 5]} Echo.start)
    as (merged & out & st' & Hrun & Hlog & Hgrad & Hout & Hwin & Hdef);
    [ done | done | done | done | ].
  exists st'. injection Hout as -> _.
  split; [ exact Hrun | ]. split; [ | exact Hgrad ].
  rewrite Hlog. cbn. do 2 f_equal.
  apply map_eq. intros k.
  destruct (decide (k = "top_k")) as [-> | Hne].
  - rewrite (Hwin "top_k" 5) by done. done.
  - rewrite Hdef by (by rewrite lookup_singleton_ne).
    cbn. rewrite !(lookup_insert_ne _ "top_k") by done. done.
Defined.

(** C8 as stated fails for a default mapping that binds one of the two
    explicit keywords of the decoding call: Python refuses the call with
    a [TypeError] and decoding is not invoked. *)
Lemma generate_defaults_bind_attention_mask :
  generate (Echo.trainer true None {["attention_mask" := 1]} 20 [])
           Echo.three_prompts None ∅ Echo.start
  = Err TypeError Echo.start.
Proof. apply generate_TypeError. right. by eexists. Qed.

(** *** When [evaluate] returns *)

Lemma metrics_key_unfold (k : string) :
  "metrics/" +:+ k
  = String "m"%char (String "e"%char (String "t"%char (String "r"%char
      (String "i"%char (String "c"%char (String "s"%char
         (String "/"%char k))))))).
Proof. reflexivity. Qed.

Lemma metrics_key_inj (k1 k2 : string) :
  "metrics/" +:+ k1 = "metrics/" +:+ k2 -> k1 = k2.
Proof. rewrite !metrics_key_unfold. congruence. Qed.

Lemma metrics_key_fresh (k : string) :
  "metrics/" +:+ k <> "generate_time" /\ "metrics/" +:+ k <> "samples"
  /\ "metrics/" +:+ k <> "mean_reward" /\ "metrics/" +:+ k <> "metric_time".
Proof. rewrite metrics_key_unfold. repeat split; discriminate. Qed.

Lemma zip_star_nonempty (cols : list (list cell)) :
  zip_star cols <> [] -> Forall (fun c => c <> []) cols.
Proof.
  unfold zip_star. destruct cols as [ | c cols' ]; [ done | ].
  set (cols := c :: cols'). destruct (length c) as [ | n ]; [ done | ].
  cbn [zip_rows].
  destruct (forallb (fun c0 => negb (Nat.eqb (length c0) 0)) cols) eqn:Hall;
    [ | done ].
  intros _. apply Forall_forall. intros c0 Hin.
  rewrite forallb_forall in Hall.
  specialize (Hall c0 ltac:(by apply list_elem_of_In)).
  by destruct c0.
Qed.

Section Returned.

Context {W V : Type}.
Variable self : trainer W V.

Local Abbreviation state := (state W V).

Lemma update_mean_metrics_dom (metrics : list (string * list Q)) :
  forall m : gmap string value,
  dom (update_mean_metrics metrics m)
  = dom m ∪ list_to_set (map (fun k => "metrics/" +:+ k) (map fst metrics)).
Proof.
  unfold update_mean_metrics.
  induction metrics as [ | [k xs] metrics IH ]; intros m; cbn [fold_left map fst].
  - cbn. set_solver.
  - rewrite IH, dom_insert_L. cbn [list_to_set]. set_solver.
Qed.

Lemma update_mean_metrics_other (metrics : list (string * list Q)) (key : string) :
  (forall k, key <> "metrics/" +:+ k) ->
  forall m : gmap string value,
  update_mean_metrics metrics m !! key = m !! key.
Proof.
  intros Hkey. unfold update_mean_metrics.
  induction metrics as [ | [k xs] metrics IH ]; intros m; cbn [fold_left fst snd].
  - done.
  - rewrite IH, lookup_insert_ne; [ done | ]. intros Heq. by apply (Hkey k).
Qed.

Lemma decode_samples_Ok (t : tensor) (st st1 : state) s data :
  decode_samples self t st = Ok (s, data) st1 ->
  s = match self_tokenizer self with
      | Some tok => Decoded (map (decode tok) (rows t))
      | None => Raw t
      end
  /\ reward_calls (log st1) = reward_calls (log st)
  /\ world st1 = world st.
Proof.
  unfold decode_samples. destruct (self_tokenizer self) as [tok | ].
  - rewrite tell_bind. destruct (map (decode tok) (rows t)) as [ | x xs ] eqn:Hd;
      [ done | ].
    cbn. intros [= <- <- <-]. cbn.
    unfold reward_calls. rewrite omap_app. cbn. by rewrite app_nil_r.
  - destruct (rows t) as [ | x xs ] eqn:Hd; [ done | ].
    cbn. intros [= <- <- <-]. done.
Qed.

Lemma add_reward_Ok (s : samples) (tb tb' : table) (st st' : state) :
  add_reward self s tb st = Ok tb' st' ->
  match reward_fn self with
  | Some f =>
    let rewards := fst (f s (world st)) in
    stats tb' = <["mean_reward" := VScalar (tensor_mean rewards)]> (stats tb)
    /\ columns_data tb' = columns_data tb ++ [map CNum rewards]
    /\ reward_calls (log st') = reward_calls (log st) ++ [s]
  | None => tb' = tb /\ st' = st
  end.
Proof.
  unfold add_reward. destruct (reward_fn self) as [f | ].
  - rewrite tell_bind, ask_bind, tell_bind. cbn.
    intros [= <- <-]. cbn.
    unfold reward_calls. rewrite !omap_app. cbn. by rewrite app_nil_r.
  - by intros [= <- <-].
Qed.

Lemma add_metrics_Ok (s : samples) (tb tb' : table) (st st' : state) :
  add_metrics self s tb st = Ok tb' st' ->
  reward_calls (log st') = reward_calls (log st)
  /\ match metric_fn self with
     | Some f =>
       exists (w : W) (t : Q),
         let metrics := fst (f s w) in
         stats tb' = update_mean_metrics metrics
                       (<["metric_time" := VScalar (Num t)]> (stats tb))
         /\ columns_data tb'
            = columns_data tb ++ map (fun kx => map CNum (snd kx)) metrics
     | None => tb' = tb
     end.
Proof.
  intros Hrun. split.
  - pose proof (keeps_add_metrics self sel_reward ltac:(done) s tb st) as Hk.
    by rewrite Hrun in Hk.
  - revert Hrun. unfold add_metrics. destruct (metric_fn self) as [f | ].
    + rewrite ask_bind, tell_bind, ask_bind, ask_bind. cbn.
      intros [= <- <-]. cbn. by eexists _, _.
    + by intros [= <- <-].
Qed.

Lemma evaluate_Ok (st st' : state) (result : gmap string value) :
  evaluate self st = Ok result st' ->
  exists (all : list tensor) (stacked : tensor) (t : Q) (w : W) (st4 : state),
    vstack all = Some stacked
    /\ gather_calls (log st4) = gather_calls (log st) ++ [stacked]
    /\ reward_calls (log st4) = reward_calls (log st)
    /\ if is_main_process self
       then on_main_process self (<["generate_time" := VScalar (Num t)]> ∅)
              (fst (gather self stacked w)) st4 = Ok result st'
       else result = <["generate_time" := VScalar (Num t)]> ∅ /\ st' = st4.
Proof.
  unfold evaluate. rewrite ask_bind. intros H.
  set (st0 := {| world := _; grad_enabled := _; log := log st |}) in H.
  apply bind_Ok in H as (all & st1 & Hloop & H).
  pose proof (keeps_sample_loop self sel_gather (eval_dataloader self)
                ltac:(done) ltac:(done) [] st0) as Hg.
  pose proof (keeps_sample_loop self sel_reward (eval_dataloader self)
                ltac:(done) ltac:(done) [] st0) as Hr.
  rewrite Hloop in Hg, Hr. cbn [final log] in Hg, Hr.
  rewrite ask_bind in H. unfold torch_vstack in H.
  destruct (vstack all) as [stacked | ] eqn:Hstack; [ | done ].
  rewrite ret_bind, tell_bind, ask_bind in H.
  eexists all, stacked, _, _, _. split; [ done | ].
  split; [ | split ]; [ | | destruct (is_main_process self) ].
  3: exact H.
  3: { injection H as <- <-. done. }
  - unfold gather_calls. cbn [log]. rewrite omap_app, Hg. cbn. done.
  - unfold reward_calls. cbn [log]. rewrite omap_app, Hr. cbn.
    by rewrite app_nil_r.
Qed.

Lemma on_main_process_Ok (stats0 : gmap string value) (gathered : tensor)
    (st st' : state) (result : gmap string value) :
  on_main_process self stats0 gathered st = Ok result st' ->
  exists (s : samples) (data : list (list cell)) (tb1 tb2 : table)
         (st1 st2 st3 : state),
    decode_samples self gathered st = Ok (s, data) st1
    /\ add_reward self s
         {| stats := stats0; columns := ["samples"]; columns_data := data |} st1
       = Ok tb1 st2
    /\ add_metrics self s tb1 st2 = Ok tb2 st3
    /\ zip_star (columns_data tb2) <> []
    /\ result = <["samples" := VTable (columns tb2) (zip_star (columns_data tb2))]>
                  (stats tb2)
    /\ reward_calls (log st') = reward_calls (log st3).
Proof.
  unfold on_main_process. intros H.
  apply bind_Ok in H as ([s data] & st1 & Hdec & H).
  apply bind_Ok in H as (tb1 & st2 & Hrew & H).
  apply bind_Ok in H as (tb2 & st3 & Hmet & H).
  exists s, data, tb1, tb2, st1, st2, st3. do 3 (split; [ done | ]).
  destruct (zip_star (columns_data tb2)) as [ | row rows ] eqn:Hrows; [ done | ].
  cbn in H. injection H as <- <-. split; [ done | ]. split; [ done | ].
  cbn. unfold reward_calls. rewrite omap_app. cbn. by rewrite app_nil_r.
Qed.

Lemma expected_keys_spec (names : list string) (key : string) :
  key ∈ expected_keys self names <->
  key = "generate_time"
  \/ (is_main_process self = true
      /\ (key = "samples"
          \/ (is_Some (reward_fn self) /\ key = "mean_reward")
          \/ (is_Some (metric_fn self)
              /\ (key = "metric_time"
                  \/ exists k, k ∈ names /\ key = "metrics/" +:+ k)))).
Proof.
  unfold expected_keys.
  assert (Hnames : key ∈ (list_to_set (map (fun k => "metrics/" +:+ k) names)
                          : gset string)
                   <-> exists k, k ∈ names /\ key = "metrics/" +:+ k).
  { rewrite elem_of_list_to_set, list_elem_of_fmap. naive_solver. }
  assert (Hnone : forall A, ~ is_Some (@None A)) by (intros A [? ?]; done).
  assert (Hsome : forall A (a : A), is_Some (Some a)) by (by eexists).
  destruct (is_main_process self), (reward_fn self), (metric_fn self);
    rewrite ?elem_of_union, ?elem_of_singleton, ?Hnames, ?elem_of_empty;
    naive_solver.
Qed.

Lemma evaluate_dom (st st' : state) (result : gmap string value) :
  evaluate self st = Ok result st' ->
  exists names : list string,
    ((is_main_process self = true
      /\ exists f s w, metric_fn self = Some f /\ names = map fst (fst (f s w)))
     \/ names = [])
    /\ dom result = expected_keys self names
    /\ (is_main_process self = true ->
        exists cols rows, result !! "samples" = Some (VTable cols rows)).
Proof.
  intros H.
  apply evaluate_Ok in H as (all & stacked & t & w & st4 & _ & _ & _ & H).
  unfold expected_keys.
  destruct (is_main_process self) eqn:Hmain.
  - apply on_main_process_Ok in H
      as (s & data & tb1 & tb2 & st1 & st2 & st3 & _ & Hrew & Hmet & _ & -> & _).
    apply add_reward_Ok in Hrew. apply add_metrics_Ok in Hmet as (_ & Hmet).
    cbn [stats] in Hrew.
    assert (Htable : exists cols rows,
              <["samples" := VTable (columns tb2) (zip_star (columns_data tb2))]>
                (stats tb2) !! "samples" = Some (VTable cols rows))
      by (eexists _, _; apply lookup_insert_eq).
    destruct (metric_fn self) as [mf | ] eqn:Hmf.
    + destruct Hmet as (w' & t' & Hstats & _). cbn zeta in Hstats.
      exists (map fst (fst (mf s w'))).
      split; [ left; split; [ done | by eexists _, _, _ ] | ].
      split; [ | done ].
      rewrite dom_insert_L, Hstats, update_mean_metrics_dom, dom_insert_L.
      destruct (reward_fn self) as [rf | ].
      * destruct Hrew as (-> & _). rewrite !dom_insert_L, dom_empty_L. set_solver.
      * destruct Hrew as (-> & _). cbn [stats].
        rewrite !dom_insert_L, dom_empty_L. set_solver.
    + subst tb2. exists []. split; [ by right | ]. split; [ | done ].
      rewrite dom_insert_L.
      destruct (reward_fn self) as [rf | ].
      * destruct Hrew as (-> & _). rewrite !dom_insert_L, dom_empty_L. set_solver.
      * destruct Hrew as (-> & _). cbn [stats].
        rewrite !dom_insert_L, dom_empty_L. set_solver.
  - destruct H as (-> & _). exists []. split; [ by right | ].
    split; [ | done ]. rewrite dom_insert_L, dom_empty_L. set_solver.
Qed.

End Returned.



Example padded_with_zero_without_tokenizer :
  exists st1,
    sample_loop (Echo.trainer false None ∅ 4 [PromptTensor Echo.three_prompts])
                [PromptTensor Echo.three_prompts] [] Echo.start
    = Ok [{| width := 4;
             rows := [[11; 12; 0; 0]; [21; 22; 0; 0]; [31; 32; 0; 0]] |}] st1.
Proof. eexists. vm_compute. reflexivity. Qed.

Example padded_with_eos_with_tokenizer :
  exists st1,
    sample_loop (Echo.trainer false
                   (Some {| eos_token_id := 50256; decode := fun _ => "" |})
                   ∅ 3 [PromptTensor Echo.three_prompts])
                [PromptTensor Echo.three_prompts] [] Echo.start
    = Ok [{| width := 3;
             rows := [[11; 12; 50256]; [21; 22; 50256]; [31; 32; 50256]] |}] st1.
Proof. eexists. vm_compute. reflexivity. Qed.



Example long_sample_is_cut :
  exists st1,
    sample_loop (Echo.trainer false None ∅ 4 [PromptTensor Echo.five_wide])
                [PromptTensor Echo.five_wide] [] Echo.start
    = Ok [{| width := 4; rows := [[1; 2; 3; 4]; [6; 7; 8; 9]] |}] st1.
Proof. eexists. vm_compute. reflexivity. Qed.



Example scored_stats_keys :
  dom Echo.scored_stats
  = {["generate_time"; "samples"; "mean_reward"; "metric_time";
      "metrics/length"; "metrics/distinct"]}.
Proof. vm_compute. reflexivity. Qed.

Example stats_on_another_process :
  exists st',
    evaluate (Echo.scored false) Echo.start
    = Ok {["generate_time" := VScalar (Num 0)]} st'.
Proof. eexists. vm_compute. reflexivity. Qed.




End EvalFacts.

(** ** More on the training loop *)

Module LearnMore.
Import Py Learn LearnSpec LearnLog LearnFacts.

Section WithCollaborators.

Context {W Batch Loss : Type}.
Variable env : collaborators W Batch Loss.
Variable cfg : settings.

Local Abbreviation state := (state W Batch).

(** What every update and every hook preserves holds when [learn] ends,
    however it ends. *)
Lemma learn_invariant (Inv : state -> Prop) (w : W) :
  (forall batch st, Inv st -> Inv (final_state (update env cfg batch st))) ->
  (forall c f st, is_hook c = true -> Inv st -> Inv (run c f st)) ->
  Inv {| world := prepare_learning env w; iter_count := 0; calls := [] |} ->
  Inv (final_state (learn env cfg w)).
Proof.
  intros Hupd Hhook Hinit. unfold learn.
  set (st0 := {| world := _; iter_count := 0; calls := [] |}) in *.
  assert (Hu : forall batch, triple Inv (update env cfg batch) Inv
                               (fun _ => Inv) (fun _ => Inv)).
  { intros batch st Hst. specialize (Hupd batch st Hst).
    by destruct (update env cfg batch st). }
  assert (Hb : forall batch, triple Inv (batch_body env cfg batch) Inv
                               (fun _ => Inv) (fun _ => Inv)).
  { intros batch. apply batch_body_triple with (Qm := Inv).
    - apply (updates_loop_triple env cfg batch _ _ _ (fun _ => Inv)). auto.
    - intros st Hst. by apply Hhook. }
  assert (He : triple Inv (epoch_body env cfg) Inv (fun _ => Inv) (fun _ => Inv)).
  { apply epoch_body_triple with (Qm := fun _ => Inv).
    - intros bs st (Hst & _).
      by apply (batches_loop_triple env cfg _ _ bs (fun _ => Inv)); auto.
    - intros bs st Hst. by apply Hhook. }
  pose proof (epochs_loop_triple env cfg (fun _ => Inv) (fun _ => Inv)
                (Z.to_nat (epochs cfg)) (fun _ => Inv) (fun _ _ => He) st0 Hinit)
    as H.
  by destruct (epochs_loop env cfg _ st0).
Qed.

Lemma update_calls_lockstep (batch : Batch) (k : Z) :
  steps_of is_loss (update_calls cfg batch k) = [k]
  /\ steps_of is_backward (update_calls cfg batch k) = [k]
  /\ steps_of is_opt_step (update_calls cfg batch k) = [k]
  /\ steps_of is_opt_zero_grad (update_calls cfg batch k) = [k]
  /\ steps_of is_scheduler_step (update_calls cfg batch k) = [k].
Proof.
  unfold update_calls, mod_.
  destruct (checkpoint_interval cfg =? 0); [ done | ].
  destruct (eval_interval cfg =? 0),
           ((k + 1) mod checkpoint_interval cfg =? 0),
           ((k + 1) mod eval_interval cfg =? 0),
           (k + 1 >=? total_steps cfg); done.
Qed.

Lemma counter_values_S (k : Z) :
  0 <= k -> counter_values (k + 1) = counter_values k ++ [k].
Proof.
  intros Hk. unfold counter_values.
  replace (Z.to_nat (k + 1)) with (S (Z.to_nat k)) by lia.
  rewrite seq_S, map_app. cbn. do 2 f_equal. lia.
Qed.

End WithCollaborators.


End LearnMore.

(** ** How the training loop ends *)

Module LearnOutcomes.
Import Py Learn LearnSpec LearnLog LearnFacts.

Section Outcomes.

Context {W Batch Loss : Type}.
Variable env : collaborators W Batch Loss.
Variable cfg : settings.

Local Abbreviation state := (state W Batch).

(** The same with one assertion per way of ending. *)
Lemma learn_triple (Inv : state -> Prop)
    (Qr : gmap string value -> state -> Prop) (Qx : exn -> state -> Prop)
    (w : W) :
  (forall batch, triple Inv (update env cfg batch) Inv Qr Qx) ->
  (forall c f st, is_hook c = true -> Inv st -> Inv (run c f st)) ->
  Inv {| world := prepare_learning env w; iter_count := 0; calls := [] |} ->
  match learn env cfg w with
  | Normal st => Inv st
  | Return v st => Qr v st
  | Raise e st => Qx e st
  end.
Proof.
  intros Hu Hhook Hinit. unfold learn.
  assert (Hb : forall batch, triple Inv (batch_body env cfg batch) Inv Qr Qx).
  { intros batch. apply batch_body_triple with (Qm := Inv).
    - apply (updates_loop_triple env cfg batch _ _ _ (fun _ => Inv)). auto.
    - intros st Hst. by apply Hhook. }
  assert (He : triple Inv (epoch_body env cfg) Inv Qr Qx).
  { apply epoch_body_triple with (Qm := fun _ => Inv).
    - intros bs st (Hst & _).
      by apply (batches_loop_triple env cfg _ _ bs (fun _ => Inv)); auto.
    - intros bs st Hst. by apply Hhook. }
  exact (epochs_loop_triple env cfg Qr Qx (Z.to_nat (epochs cfg))
           (fun _ => Inv) (fun _ _ => He) _ Hinit).
Qed.

Lemma steps_of_hook (p : call Batch -> bool) c f (st : state) :
  p c = false ->
  steps_of p (calls (run c f st)) = steps_of p (calls st).
Proof.
  intros Hp. rewrite run_calls, steps_of_app. unfold steps_of at 2.
  cbn. rewrite Hp. cbn. by rewrite app_nil_r.
Qed.

Lemma cadence_steps_elem (interval : Z) (n : nat) (j : Z) :
  j ∈ cadence_steps interval n <-> 1 <= j <= Z.of_nat n /\ j mod interval = 0.
Proof.
  unfold cadence_steps.
  rewrite list_elem_of_In, filter_In, <- list_elem_of_In, list_elem_of_fmap.
  rewrite Z.eqb_eq. split.
  - intros ((i & -> & Hi) & Hmod). apply list_elem_of_In, in_seq in Hi.
    split; [ lia | done ].
  - intros (Hj & Hmod). split; [ | done ].
    exists (Z.to_nat j). split; [ lia | ].
    apply list_elem_of_In, in_seq. lia.
Qed.

Lemma cadence_steps_NoDup (interval : Z) (n : nat) :
  NoDup (cadence_steps interval n).
Proof.
  unfold cadence_steps. apply NoDup_ListNoDup, List.NoDup_filter.
  apply NoDup_ListNoDup, NoDup_fmap; [ apply Nat2Z.inj' | ].
  apply NoDup_ListNoDup, seq_NoDup.
Qed.

End Outcomes.




(** X4.  When the checkpoint interval or the evaluation interval is zero
    and at least one update is on offer, [learn] raises
    [ZeroDivisionError] in its first update, after the optimizer and the
    scheduler have stepped and the counter has become 1: the remainder is
    taken only after the increment.  Nothing was evaluated; a checkpoint
    was saved only if the checkpoint interval is nonzero and divides 1. *)
Theorem learn_zero_interval_raises {W Batch Loss : Type}
    (env : collaborators W Batch Loss) (cfg : settings) (w : W)
    (batch : Batch) (batches : list Batch) :
  checkpoint_interval cfg = 0 \/ eval_interval cfg = 0 ->
  1 <= epochs cfg -> 1 <= n_updates_per_batch cfg ->
  train_dataloader env (prepare_learning env w) = batch :: batches ->
  exists st,
    learn env cfg w = Raise ZeroDivisionError st
    /\ iter_count st = 1
    /\ steps_of is_opt_step (calls st) = [0]
    /\ steps_of is_scheduler_step (calls st) = [0]
    /\ steps_of is_evaluate (calls st) = []
    /\ steps_of is_save (calls st)
       = (if checkpoint_interval cfg =? 0 then []
          else if 1 mod checkpoint_interval cfg =? 0 then [1] else []).
Proof.
  intros Hzero He Hu Hdl.
  set (st0 := {| world := prepare_learning env w; iter_count := 0; calls := [] |}
              : state W Batch).
  destruct (update_spec env cfg batch st0) as (Hk & Hc & Hkind).
  destruct (update env cfg batch st0) as [st | v st | e st] eqn:Hupd;
    cbn [final_state] in Hk, Hc.
  - destruct Hkind as (? & ? & _). by destruct Hzero.
  - destruct Hkind as (? & ? & _). by destruct Hzero.
  - destruct Hkind as (-> & _). exists st. split.
    { unfold learn. fold st0.
      destruct (Z.to_nat (epochs cfg)) as [ | e ] eqn:HE; [ lia | ].
      cbn [epochs_loop]. unfold epoch_body. cbn [world st0]. rewrite Hdl.
      cbn [batches_loop]. unfold batch_body.
      destruct (Z.to_nat (n_updates_per_batch cfg)) as [ | u ] eqn:HU; [ lia | ].
      cbn [updates_loop]. by rewrite Hupd. }
    split; [ done | ].
    rewrite Hc. cbn [calls st0 app iter_count].
    unfold update_calls, mod_. cbn [Z.add].
    destruct (Z.eqb_spec (checkpoint_interval cfg) 0) as [ Hc0 | Hc0 ]; [ done | ].
    destruct (Z.eqb_spec (eval_interval cfg) 0) as [ He0 | He0 ];
      [ | by destruct Hzero ].
    change (0 + 1) with 1.
    destruct (1 mod checkpoint_interval cfg =? 0); done.
Qed.

Lemma learn_zero_interval_raises_witness :
  exists st,
    learn (Idle.trainer [7%nat])
          {| epochs := 1; n_updates_per_batch := 1; checkpoint_interval := 0;
             eval_interval := 10; total_steps := 10 |} tt
    = Raise ZeroDivisionError st
    /\ iter_count st = 1.
Proof.
  destruct (learn_zero_interval_raises (Idle.trainer [7%nat])
              {| epochs := 1; n_updates_per_batch := 1; checkpoint_interval := 0;
                 eval_interval := 10; total_steps := 10 |} tt 7%nat [])
    as (st & Hrun & Hk & _); [ by left | done | done | done | ].
  exists st. split; [ exact Hrun | exact Hk ].
Defined.

(** X5.  With [n_updates_per_batch] zero or negative, [learn] makes no
    update at all: the counter stays 0, nothing is saved, evaluated or
    logged, whatever the step budget and the intervals are (even zero),
    and [learn] falls off its loops; the only calls are the hooks. *)
Theorem learn_without_updates {W Batch Loss : Type}
    (env : collaborators W Batch Loss) (cfg : settings) (w : W) :
  n_updates_per_batch cfg <= 0 ->
  exists st,
    learn env cfg w = Normal st
    /\ iter_count st = 0
    /\ Forall (fun e => is_hook (snd e) = true) (calls st).
Proof.
  intros HU.
  assert (Hb : forall batch,
            triple (idle (W:=W) (Batch:=Batch)) (batch_body env cfg batch) idle
                   (fun _ _ => False) (fun _ _ => False)).
  { intros batch st (Hk & Hc). unfold batch_body.
    replace (Z.to_nat (n_updates_per_batch cfg)) with 0%nat by lia.
    cbn [updates_loop]. split; [ done | ].
    rewrite run_calls. apply Forall_app. split; [ done | by constructor ]. }
  assert (He : triple (idle (W:=W) (Batch:=Batch)) (epoch_body env cfg) idle
                 (fun _ _ => False) (fun _ _ => False)).
  { apply epoch_body_triple with (Qm := fun _ => idle).
    - intros bs st (Hst & _).
      by apply (batches_loop_triple env cfg _ _ bs (fun _ => idle)); auto.
    - intros bs st (Hk & Hc). split; [ done | ].
      rewrite run_calls. apply Forall_app. split; [ done | by constructor ]. }
  pose proof (epochs_loop_triple env cfg _ _ (Z.to_nat (epochs cfg))
                (fun _ => idle) (fun _ _ => He)
                {| world := prepare_learning env w; iter_count := 0; calls := [] |}
                ltac:(by split)) as H.
  unfold learn. destruct (epochs_loop env cfg _ _) as [st | | ]; [ | done | done ].
  exists st. destruct H as (Hk & Hc). done.
Qed.

Lemma learn_without_updates_witness :
  exists st,
    learn (Idle.trainer [1; 2]%nat)
          {| epochs := 2; n_updates_per_batch := 0; checkpoint_interval := 0;
             eval_interval := 0; total_steps := 0 |} tt
    = Normal st
    /\ iter_count st = 0.
Proof.
  destruct (learn_without_updates (Idle.trainer [1; 2]%nat)
              {| epochs := 2; n_updates_per_batch := 0; checkpoint_interval := 0;
                 eval_interval := 0; total_steps := 0 |} tt)
    as (st & Hrun & Hk & _); [ done | ].
  exists st. split; [ exact Hrun | exact Hk ].
Defined.

(** X6.  The record a cadence evaluation hands to the accelerator's
    [log] is the evaluation's statistics overwritten by the loss
    statistics of the update, overwritten in turn by the two timings:
    [forward_time] and [backward_time] are the update's, every other key
    the loss statistics bind has their value, and only the remaining keys
    show what [evaluate] returned. *)
Theorem cadence_log_record {W Batch Loss : Type}
    (env : collaborators W Batch Loss)
    (stats : gmap string value) (forward_time backward_time : Q)
    (st : state W Batch) :
  let results := fst (evaluate env (world st)) in
  exists logged : gmap string value,
    world (evaluate_and_log env stats forward_time backward_time st)
    = accelerator_log env logged (snd (evaluate env (world st)))
    /\ logged !! "forward_time" = Some (VScalar (Num forward_time))
    /\ logged !! "backward_time" = Some (VScalar (Num backward_time))
    /\ (forall k v, k <> "forward_time" -> k <> "backward_time" ->
                    stats !! k = Some v -> logged !! k = Some v)
    /\ (forall k, k <> "forward_time" -> k <> "backward_time" ->
                  stats !! k = None -> logged !! k = results !! k).
Proof.
  intros results. subst results.
  unfold evaluate_and_log, do_evaluate, ask. cbn [world tell].
  destruct (evaluate env (world st)) as [results w1]. cbn [fst snd].
  eexists. split; [ reflexivity | ].
  split; [ by rewrite lookup_insert_ne, lookup_insert_eq | ].
  split; [ by rewrite lookup_insert_eq | ].
  split.
  - intros k v H1 H2 Hk. rewrite !lookup_insert_ne by done.
    by apply lookup_union_Some_l.
  - intros k H1 H2 Hk. rewrite !lookup_insert_ne by done.
    by apply lookup_union_r.
Qed.

End LearnOutcomes.

(** ** More on evaluation *)

Module EvalMore.
Import Py Tensor Eval EvalSpec EvalLog EvalFacts.

Section Growth.

Context {W V : Type}.
Variable self : trainer W V.
Variable P : call V -> Prop.

Local Abbreviation state := (state W V).
Local Abbreviation M := (@M W V).

Lemma grows_bind {A B} (c : M A) (f : A -> M B) :
  grows P c -> (forall a, grows P (f a)) -> grows P (c ≫= f).
Proof.
  intros Hc Hf st. rewrite final_bind. specialize (Hc st).
  destruct (c st) as [a st1 | e st1]; cbn [final] in Hc; [ | done ].
  destruct Hc as (Hg & l1 & Hl1 & HP1).
  destruct (Hf a st1) as (Hg2 & l2 & Hl2 & HP2).
  split; [ congruence | ].
  exists (l1 ++ l2). split; [ by rewrite Hl2, Hl1, app_assoc | ].
  by apply Forall_app.
Qed.

Lemma grows_ret {A} (a : A) : grows P (mret a : M A).
Proof. intros st. split; [ done | ]. exists []. by rewrite app_nil_r. Qed.

Lemma grows_raise {A} (e : exn) : grows P (raise e : M A).
Proof. intros st. split; [ done | ]. exists []. by rewrite app_nil_r. Qed.

Lemma grows_ask {A} (f : W -> A * W) : grows P (ask f : M A).
Proof.
  intros st. rewrite ask_Ok. split; [ done | ]. exists []. by rewrite app_nil_r.
Qed.

Lemma grows_tell (c : call V) : P c -> grows P (tell c : M unit).
Proof. intros Hc st. split; [ done | ]. exists [c]. split; [ done | by constructor ]. Qed.

Lemma grows_first {A} (xs : list A) : grows P (first xs : M A).
Proof. destruct xs; [ apply grows_raise | apply grows_ret ]. Qed.

Lemma grows_generate ids mask kwargs :
  P (CModelGenerate ids mask (kwargs ∪ generate_kwargs self) false) ->
  grows P (generate self ids mask kwargs).
Proof.
  intros HP st. unfold generate, no_grad, call_model_generate.
  destruct (_ !! "input_ids");
    [ split; [ done | ]; exists []; by rewrite app_nil_r | ].
  destruct (_ !! "attention_mask");
    [ split; [ done | ]; exists []; by rewrite app_nil_r | ].
  unfold mbind, M_bind, tell. rewrite ask_Ok. cbn.
  split; [ done | ]. eexists. split; [ done | by constructor ].
Qed.

Hypothesis Hother : forall c, sel_model c = None -> P c.

Lemma grows_decoding ids mask :
  P (CModelGenerate ids mask (generate_kwargs self) false) ->
  grows P (generate self ids mask ∅).
Proof.
  intros HP. apply grows_generate. by rewrite (left_id_L ∅ (∪)).
Qed.

Lemma grows_sample_loop (batches : list prompts) :
  (forall ids mask, P (CModelGenerate ids mask (generate_kwargs self) false)) ->
  forall acc, grows P (sample_loop self batches acc).
Proof.
  intros HP.
  induction batches as [ | batch batches IH ]; intros acc; cbn [sample_loop].
  - apply grows_ret.
  - apply grows_bind; [ destruct batch; by apply grows_decoding | intros out ].
    apply grows_bind; [ | intros p; apply IH ].
    unfold F_pad. apply grows_bind; [ by apply grows_tell, Hother | intros _ ].
    destruct (pad_right _ _ _); [ apply grows_ret | apply grows_raise ].
Qed.

Lemma grows_on_main_process (st : gmap string value) (gathered : tensor) :
  grows P (on_main_process self st gathered).
Proof.
  unfold on_main_process.
  apply grows_bind; [ | intros [s data] ].
  { unfold decode_samples. destruct (self_tokenizer self).
    - apply grows_bind; [ by apply grows_tell, Hother | intros _ ].
      apply grows_bind; [ apply grows_first | intros _; apply grows_ret ].
    - apply grows_bind; [ apply grows_first | intros _; apply grows_ret ]. }
  apply grows_bind; [ | intros tb ].
  { unfold add_reward. destruct (reward_fn self); [ | apply grows_ret ].
    apply grows_bind; [ by apply grows_tell, Hother | intros _ ].
    apply grows_bind; [ apply grows_ask | intros rewards ].
    apply grows_bind; [ by apply grows_tell, Hother | intros _; apply grows_ret ]. }
  apply grows_bind; [ | intros tb' ].
  { unfold add_metrics. destruct (metric_fn self); [ | apply grows_ret ].
    apply grows_bind; [ apply grows_ask | intros t0 ].
    apply grows_bind; [ by apply grows_tell, Hother | intros _ ].
    apply grows_bind; [ apply grows_ask | intros metrics ].
    apply grows_bind; [ apply grows_ask | intros t1 ]. apply grows_ret. }
  apply grows_bind; [ apply grows_first | intros _ ].
  apply grows_bind; [ by apply grows_tell, Hother | intros _; apply grows_ret ].
Qed.

Lemma grows_evaluate :
  (forall ids mask, P (CModelGenerate ids mask (generate_kwargs self) false)) ->
  grows P (evaluate self).
Proof.
  intros HP. unfold evaluate.
  apply grows_bind; [ apply grows_ask | intros t0 ].
  apply grows_bind; [ by apply grows_sample_loop | intros all ].
  apply grows_bind; [ apply grows_ask | intros t1 ].
  apply grows_bind; [ | intros stacked ].
  { unfold torch_vstack. destruct (vstack all); [ apply grows_ret | apply grows_raise ]. }
  apply grows_bind; [ by apply grows_tell, Hother | intros _ ].
  apply grows_bind; [ apply grows_ask | intros gathered ].
  destruct (is_main_process self); [ apply grows_on_main_process | apply grows_ret ].
Qed.

End Growth.


Section AfterSampling.

Context {W V X : Type}.
Variable self : trainer W V.
Variable sel : call V -> option X.

Local Abbreviation state := (state W V).

Hypothesis Hgather : forall t, sel (CGather t) = None.
Hypothesis Hdecode : forall t, sel (CBatchDecode t) = None.
Hypothesis Hmetric : forall s, sel (CMetricFn s) = None.
Hypothesis Hprint : sel CPrint = None.
Hypothesis Hreward : forall s, sel (CRewardFn s) = None.

(** What [evaluate] does after its sampling loop makes no call that
    [sel] selects. *)
Lemma evaluate_keeps_after_sampling (st : state) :
  omap sel (log (final (evaluate self st)))
  = omap sel (log (final (sample_loop self (eval_dataloader self) []
       {| world := snd (time self (world st));
          grad_enabled := grad_enabled st; log := log st |}))).
Proof.
  unfold evaluate. rewrite ask_bind, final_bind.
  destruct (sample_loop self (eval_dataloader self) [] _) as [all st1 | e st1];
    [ | done ].
  cbn [final].
  assert (Hrest : keeps sel
    (t1 ← ask (time self);
     stacked ← torch_vstack all;
     _ ← tell (CGather stacked);
     gathered ← ask (gather self stacked);
     if is_main_process self
     then on_main_process self
            (<["generate_time" := VScalar (Num (t1 - fst (time self (world st))))]> ∅)
            gathered
     else mret (<["generate_time" :=
                    VScalar (Num (t1 - fst (time self (world st))))]> ∅))).
  { apply keeps_bind; [ apply keeps_ask | intros t1 ].
    apply keeps_bind; [ apply keeps_vstack | intros stacked ].
    apply keeps_bind; [ by apply keeps_tell | intros _ ].
    apply keeps_bind; [ apply keeps_ask | intros gathered ].
    destruct (is_main_process self);
      [ by apply keeps_on_main_process | apply keeps_ret ]. }
  exact (Hrest st1).
Qed.

End AfterSampling.

Section Decoding.

Context {W V : Type}.
Variable self : trainer W V.

Local Abbreviation state := (state W V).

Hypothesis Hids : generate_kwargs self !! "input_ids" = None.
Hypothesis Hmask : generate_kwargs self !! "attention_mask" = None.
Hypothesis Hlen : 0 < max_length self.

Lemma sample_loop_model_calls (batches : list prompts) :
  forall (acc : list tensor) (st : state),
  model_calls (log (final (sample_loop self batches acc st)))
  = model_calls (log st)
    ++ map (fun batch => (prompt_ids batch, prompt_mask batch,
                          generate_kwargs self, false)) batches.
Proof.
  induction batches as [ | batch batches IH ]; intros acc st.
  - cbn. by rewrite app_nil_r.
  - cbn [sample_loop].
    assert (Hgen : match batch with
                   | PromptTensor i => generate self i None ∅
                   | PromptDict i m => generate self i m ∅
                   end = generate self (prompt_ids batch) (prompt_mask batch) ∅)
      by (by destruct batch).
    rewrite Hgen.
    assert (H1 : ((∅ : gmap string V) ∪ generate_kwargs self) !! "input_ids" = None)
      by (by rewrite (left_id_L ∅ (∪))).
    assert (H2 : ((∅ : gmap string V) ∪ generate_kwargs self) !! "attention_mask" = None)
      by (by rewrite (left_id_L ∅ (∪))).
    rewrite (bind_Ok_intro _ _ _ _ _
               (generate_Ok self (prompt_ids batch) (prompt_mask batch) ∅ st H1 H2)).
    set (out := fst _). set (st1 := {| world := _; grad_enabled := _; log := _ |}).
    destruct (pad_right_to self Hlen (unwrap out) (pad_token self)) as [p Hp].
    destruct Hp as (Hpad & _).
    unfold F_pad. unfold mbind at 1, M_bind at 1.
    unfold mbind at 1, M_bind at 1, tell. rewrite Hpad.
    unfold mret at 1, M_ret at 1.
    rewrite IH. subst st1. cbn [log map].
    unfold model_calls. rewrite !omap_app. cbn.
    rewrite (left_id_L ∅ (∪)), <- !app_assoc. done.
Qed.

End Decoding.



(** X9.  Off the main process [evaluate] never decodes text, never calls
    the reward or the metric function and prints nothing, however it
    ends; when it returns, its statistics hold [generate_time] and
    nothing else, and it has taken part in the gather exactly once. *)
Theorem evaluate_off_main_process {W V : Type} (self : trainer W V)
    (st : state W V) :
  is_main_process self = false ->
  omap sel_scoring (log (final (evaluate self st))) = omap sel_scoring (log st)
  /\ forall result st',
       evaluate self st = Ok result st' ->
       (exists t, result = {["generate_time" := VScalar (Num t)]})
       /\ length (gather_calls (log st')) = S (length (gather_calls (log st))).
Proof.
  intros Hmain. split.
  - unfold evaluate.
    assert (Hall : keeps sel_scoring (evaluate self)); [ | exact (Hall st) ].
    unfold evaluate.
    apply keeps_bind; [ apply keeps_ask | intros t0 ].
    apply keeps_bind; [ by apply keeps_sample_loop | intros all ].
    apply keeps_bind; [ apply keeps_ask | intros t1 ].
    apply keeps_bind; [ apply keeps_vstack | intros stacked ].
    apply keeps_bind; [ by apply keeps_tell | intros _ ].
    apply keeps_bind; [ apply keeps_ask | intros gathered ].
    rewrite Hmain. apply keeps_ret.
  - intros result st' Hrun.
    apply evaluate_Ok in Hrun as (all & stacked & t & w & st4 & _ & Hg & _ & H).
    rewrite Hmain in H. destruct H as (-> & ->).
    split; [ exists t; by rewrite insert_empty | ].
    rewrite Hg, length_app. cbn. lia.
Qed.

Lemma evaluate_off_main_process_witness :
  omap sel_scoring (log (final (evaluate (Echo.scored false) Echo.start))) = [].
Proof.
  exact (proj1 (evaluate_off_main_process (Echo.scored false) Echo.start eq_refl)).
Defined.

(** X10.  On an empty evaluation dataloader [evaluate] raises (there is
    nothing to stack) on every process, before any call to the model, to
    [gather] or to a scoring function: the call log is unchanged. *)
Theorem evaluate_empty_dataloader_raises {W V : Type} (self : trainer W V)
    (st : state W V) :
  eval_dataloader self = [] ->
  exists st',
    evaluate self st = Err RuntimeError st'
    /\ log st' = log st
    /\ grad_enabled st' = grad_enabled st.
Proof.
  intros Hdl. unfold evaluate. rewrite ask_bind, Hdl. cbn [sample_loop].
  rewrite ret_bind, ask_bind. cbn [torch_vstack vstack].
  rewrite raise_bind. by eexists.
Qed.

Lemma evaluate_empty_dataloader_raises_witness :
  exists st',
    evaluate (Echo.trainer true None ∅ 20 []) Echo.start = Err RuntimeError st'
    /\ log st' = [].
Proof.
  destruct (evaluate_empty_dataloader_raises (Echo.trainer true None ∅ 20 [])
              Echo.start eq_refl) as (st' & Hrun & Hlog & _).
  exists st'. split; [ exact Hrun | exact Hlog ].
Defined.

(** X11.  [generate] has exactly two ways to end.  When the merge of the
    caller's keyword arguments over the defaults binds [input_ids] or
    [attention_mask], it raises [TypeError] and leaves everything as it
    was: the model is not called and the gradient mode is unchanged.
    Otherwise it returns what the model's [generate] returns, having
    called it once, and the gradient mode is again what it was. *)
Theorem generate_outcome {W V : Type} (self : trainer W V)
    (ids : tensor) (mask : option tensor) (kwargs : gmap string V)
    (st : state W V) :
  let merged := kwargs ∪ generate_kwargs self in
  generate self ids mask kwargs st
  = match merged !! "input_ids", merged !! "attention_mask" with
    | None, None =>
      Ok (fst (model_generate self ids mask merged (world st)))
         {| world := snd (model_generate self ids mask merged (world st));
            grad_enabled := grad_enabled st;
            log := log st ++ [CModelGenerate ids mask merged false] |}
    | _, _ => Err TypeError st
    end.
Proof.
  intros merged. subst merged.
  destruct ((kwargs ∪ generate_kwargs self) !! "input_ids") as [v1 | ] eqn:E1.
  { apply generate_TypeError. left. by eexists. }
  destruct ((kwargs ∪ generate_kwargs self) !! "attention_mask") as [v2 | ] eqn:E2.
  { apply generate_TypeError. right. by eexists. }
  by apply generate_Ok.
Qed.

(** X12.  On the main process, when the model produces no sample for
    any batch (and gathering rows from none yields none), [evaluate]
    raises [IndexError] at [samples[0]], before the reward function is
    called. *)
Theorem evaluate_without_samples_raises {W V : Type} (self : trainer W V)
    (st : state W V) :
  is_main_process self = true ->
  generate_kwargs self !! "input_ids" = None ->
  generate_kwargs self !! "attention_mask" = None ->
  0 < max_length self ->
  eval_dataloader self <> [] ->
  (forall ids mask kwargs w,
     rows (unwrap (fst (model_generate self ids mask kwargs w))) = []) ->
  (forall t w, rows t = [] -> rows (fst (gather self t w)) = []) ->
  exists st',
    evaluate self st = Err IndexError st'
    /\ reward_calls (log st') = reward_calls (log st).
Proof.
  intros Hmain Hids Hmask Hlen Hdl Hgen Hgather.
  destruct (evaluate_sampling self Hids Hmask Hlen st)
    as (gens & all & st1 & Hrun & Hl & Hout & Hall & _ & _).
  assert (Hne : all <> []).
  { apply Forall2_length in Hall. destruct all; [ | done ].
    destruct (eval_dataloader self); [ done | ]. cbn in *. lia. }
  assert (Hwidth : Forall (fun p => width p = Z.to_nat (max_length self)) all).
  { apply Forall_forall. intros p Hp.
    apply list_elem_of_lookup in Hp as [i Hi].
    destruct (Forall2_lookup_r _ _ _ _ _ Hall Hi) as (t & _ & Hb).
    by destruct Hb as (_ & Hw & _). }
  assert (Hrows : concat (map rows all) = []).
  { clear Hne Hwidth Hrun Hl. induction Hall as [ | t p gens all Hb Hall IH ];
      [ done | ].
    apply Forall_cons in Hout as (Ht & Hout).
    destruct Ht as (ids & mask & kwargs & w & ->).
    destruct Hb as (_ & _ & _ & Hp). cbn. rewrite Hp, Hgen. cbn. by apply IH. }
  pose proof (keeps_sample_loop self sel_reward (eval_dataloader self)
                ltac:(done) ltac:(done) []
                {| world := snd (time self (world st));
                   grad_enabled := grad_enabled st; log := log st |}) as Hr.
  rewrite Hrun in Hr. cbn [final log] in Hr.
  unfold evaluate.
  rewrite ask_bind, (bind_Ok_intro _ _ _ _ _ Hrun), ask_bind.
  unfold torch_vstack. rewrite (vstack_same_width _ _ Hwidth Hne).
  rewrite ret_bind, tell_bind, ask_bind, Hmain, Hrows.
  assert (Hdec : forall (stx : state W V) t w, rows t = [] ->
            exists st', decode_samples self (fst (gather self t w)) stx
                        = Err IndexError st'
                        /\ reward_calls (log st') = reward_calls (log stx)).
  { intros stx t w Ht. unfold decode_samples.
    destruct (self_tokenizer self) as [tok | ].
    - rewrite tell_bind, Hgather by done. cbn. eexists. split; [ reflexivity | ].
      cbn. unfold reward_calls. rewrite omap_app. cbn. by rewrite app_nil_r.
    - rewrite Hgather by done. cbn. by eexists. }
  match goal with
  | |- context [on_main_process self _ (fst (gather self ?t ?w)) ?stx] =>
    destruct (Hdec stx t w eq_refl) as (st' & Hd & Hr')
  end.
  exists st'. split.
  - unfold on_main_process, mbind at 1, M_bind at 1. by rewrite Hd.
  - rewrite Hr'. cbn [log]. unfold reward_calls in *.
    rewrite omap_app, Hr. cbn. by rewrite app_nil_r.
Qed.

Lemma evaluate_without_samples_raises_witness :
  exists st',
    evaluate (Mute.trainer None) Echo.start = Err IndexError st'
    /\ reward_calls (log st') = [].
Proof.
  exact (evaluate_without_samples_raises (Mute.trainer None) Echo.start
           eq_refl eq_refl eq_refl eq_refl ltac:(done)
           (fun _ _ _ _ => eq_refl) (fun _ _ H => H)).
Defined.

(** *** The samples table *)

Lemma zip_rows_width (n : nat) : forall cols : list (list cell),
  Forall (fun row => length row = length cols) (zip_rows n cols).
Proof.
  induction n as [ | n IH ]; intros cols; cbn [zip_rows]; [ done | ].
  destruct (forallb (fun c => negb (Nat.eqb (length c) 0)) cols) eqn:Hall;
    [ | done ].
  constructor.
  - clear IH. induction cols as [ | c cols IHc ]; [ done | ].
    cbn in Hall. apply andb_prop in Hall as (Hc & Hall).
    destruct c as [ | x c ]; [ done | ]. cbn. by rewrite IHc.
  - specialize (IH (map tail cols)). by rewrite length_map in IH.
Qed.

Lemma zip_rows_length (n : nat) (cols : list (list cell)) :
  (length (zip_rows n cols) <= n)%nat.
Proof.
  revert cols. induction n as [ | n IH ]; intros cols; cbn [zip_rows]; [ done | ].
  destruct (forallb _ cols); cbn; [ | lia ]. specialize (IH (map tail cols)). lia.
Qed.

Section Table.

Context {W V : Type}.
Variable self : trainer W V.

Local Abbreviation state := (state W V).

Lemma decode_samples_column (t : tensor) (st st1 : state) s data :
  decode_samples self t st = Ok (s, data) st1 ->
  exists col, data = [col] /\ length col = length (rows t).
Proof.
  unfold decode_samples. destruct (self_tokenizer self) as [tok | ].
  - rewrite tell_bind. destruct (map (decode tok) (rows t)) as [ | x xs ] eqn:Hd;
      [ done | ].
    cbn. intros [= <- <- <-]. eexists. split; [ done | ].
    apply (f_equal length) in Hd. rewrite length_map in Hd.
    cbn in *. rewrite length_map. lia.
  - destruct (rows t) as [ | x xs ] eqn:Hd; [ done | ].
    cbn. intros [= <- <- <-]. eexists. split; [ done | ].
    cbn. by rewrite length_map.
Qed.

Lemma add_reward_columns (s : samples) (tb tb' : table) (st st' : state) :
  add_reward self s tb st = Ok tb' st' ->
  exists extra,
    columns tb' = columns tb
                  ++ match reward_fn self with Some _ => ["reward"] | None => [] end
    /\ columns_data tb' = columns_data tb ++ extra
    /\ length extra
       = length (match reward_fn self with Some _ => ["reward"] | None => [] end).
Proof.
  unfold add_reward. destruct (reward_fn self) as [f | ].
  - rewrite tell_bind, ask_bind, tell_bind. cbn. intros [= <- <-]. cbn.
    by eexists.
  - intros [= <- <-]. exists []. by rewrite !app_nil_r.
Qed.

Lemma add_metrics_columns (s : samples) (tb tb' : table) (st st' : state) :
  add_metrics self s tb st = Ok tb' st' ->
  exists names extra,
    match metric_fn self with
    | Some f => exists w, names = map fst (fst (f s w))
    | None => names = []
    end
    /\ columns tb' = columns tb ++ names
    /\ columns_data tb' = columns_data tb ++ extra
    /\ length extra = length names.
Proof.
  unfold add_metrics. destruct (metric_fn self) as [f | ].
  - rewrite ask_bind, tell_bind, ask_bind, ask_bind. cbn. intros [= <- <-]. cbn.
    eexists _, _. split; [ by eexists | ].
    split; [ reflexivity | ]. split; [ reflexivity | ].
    by rewrite !length_map.
  - intros [= <- <-]. exists [], []. by rewrite !app_nil_r.
Qed.

Lemma update_mean_metrics_fresh (metrics : list (string * list Q)) (k : string) :
  k ∉ map fst metrics ->
  forall m : gmap string value,
  update_mean_metrics metrics m !! ("metrics/" +:+ k) = m !! ("metrics/" +:+ k).
Proof.
  unfold update_mean_metrics.
  induction metrics as [ | [k0 x0] metrics IH ]; intros Hk m; cbn [fold_left fst snd].
  - done.
  - cbn [map fst] in Hk. apply not_elem_of_cons in Hk as (Hne & Hk).
    rewrite IH by done. rewrite lookup_insert_ne; [ done | ].
    intros Heq. apply metrics_key_inj in Heq. done.
Qed.

Lemma update_mean_metrics_lookup (metrics : list (string * list Q))
    (k : string) (xs : list Q) :
  NoDup (map fst metrics) -> (k, xs) ∈ metrics ->
  forall m : gmap string value,
  update_mean_metrics metrics m !! ("metrics/" +:+ k)
  = Some (VScalar (tensor_mean xs)).
Proof.
  induction metrics as [ | [k0 x0] metrics IH ]; intros Hnd Hin m.
  - by apply elem_of_nil in Hin.
  - cbn [map fst] in Hnd. apply NoDup_cons in Hnd as (Hfresh & Hnd).
    apply elem_of_cons in Hin as [ [= -> ->] | Hin ].
    + change (update_mean_metrics ((k0, x0) :: metrics) m)
        with (update_mean_metrics metrics
                (<["metrics/" +:+ k0 := VScalar (tensor_mean x0)]> m)).
      rewrite update_mean_metrics_fresh by done. apply lookup_insert_eq.
    + change (update_mean_metrics ((k0, x0) :: metrics) m)
        with (update_mean_metrics metrics
                (<["metrics/" +:+ k0 := VScalar (tensor_mean x0)]> m)).
      by apply IH.
Qed.

End Table.

(** X13.  When [evaluate] returns on the main process, the table under
    [samples] has the column names [samples], then [reward] if a reward
    function is supplied, then the metric names in the order the metric
    function gave them; it has at least one row and no more rows than
    there are gathered samples (rows are cut to the shortest column), and
    every row has one cell per column name. *)
Theorem evaluate_table_shape {W V : Type} (self : trainer W V)
    (st st' : state W V) (result : gmap string value) :
  is_main_process self = true ->
  evaluate self st = Ok result st' ->
  exists (stacked : tensor) (w : W) (names : list string) (table_rows : list (list cell)),
    let column_names :=
      "samples"
      :: match reward_fn self with Some _ => ["reward"] | None => [] end
      ++ names in
    match metric_fn self with
    | Some f => exists s w', names = map fst (fst (f s w'))
    | None => names = []
    end
    /\ result !! "samples" = Some (VTable column_names table_rows)
    /\ table_rows <> []
    /\ (length table_rows <= length (rows (fst (gather self stacked w))))%nat
    /\ Forall (fun row => length row = length column_names) table_rows.
Proof.
  intros Hmain Hrun.
  apply evaluate_Ok in Hrun as (all & stacked & t & w & st4 & _ & _ & _ & H).
  rewrite Hmain in H.
  apply on_main_process_Ok in H
    as (s & data & tb1 & tb2 & st1 & st2 & st3 & Hdec & Hrew & Hmet & Hrows & -> & _).
  apply decode_samples_column in Hdec as (col & -> & Hcol).
  apply add_reward_columns in Hrew as (extra1 & Hc1 & Hd1 & Hl1).
  apply add_metrics_columns in Hmet as (names & extra2 & Hnames & Hc2 & Hd2 & Hl2).
  cbn [columns columns_data] in Hc1, Hd1.
  exists stacked, w, names, (zip_star (columns_data tb2)). cbn zeta.
  split; [ destruct (metric_fn self); [ destruct Hnames; by eexists _, _ | done ] | ].
  split; [ rewrite lookup_insert_eq, Hc2, Hc1; by rewrite <- app_assoc | ].
  split; [ done | ].
  rewrite Hd2, Hd1. cbn [app zip_star]. split.
  - rewrite <- Hcol. apply zip_rows_length.
  - eapply Forall_impl; [ apply zip_rows_width | ].
    intros row Hrow. cbn beta in Hrow. rewrite Hrow. cbn.
    rewrite !length_app, Hl1, Hl2. done.
Qed.

Lemma evaluate_table_shape_witness :
  exists table_rows,
    Echo.scored_stats !! "samples"
    = Some (VTable ["samples"; "reward"; "length"; "distinct"] table_rows)
    /\ Forall (fun row => length row = 4%nat) table_rows.
Proof.
  assert (Hrun : evaluate (Echo.scored true) Echo.start
                 = Ok Echo.scored_stats Echo.scored_final)
    by (vm_compute; reflexivity).
  destruct (evaluate_table_shape (Echo.scored true) Echo.start
              Echo.scored_final Echo.scored_stats eq_refl Hrun)
    as (stacked & w & names & table_rows & (s & w' & ->) & Hlook & _ & _ & Hwidth).
  exists table_rows. split; [ exact Hlook | exact Hwidth ].
Defined.



End EvalMore.

(** ** More on the freeze policy *)

Module FreezeMore.
Import Freeze FreezeFacts.

Lemma freeze_layers_prefix (n : Z) (model : list block) :
  freeze_layers n model
  = map (requires_grad_ false) (take (frozen_count n (length model)) model)
    ++ drop (frozen_count n (length model)) model.
Proof.
  pose proof (frozen_count_le n (length model)) as Hk.
  unfold freeze_layers. rewrite to_freeze_take, length_seq.
  rewrite take_seq_0 by done.
  rewrite fold_freeze_seq by (cbn; lia).
  by rewrite take_0, drop_0.
Qed.

Lemma freeze_layers_length (n : Z) (model : list block) :
  length (freeze_layers n model) = length model.
Proof.
  pose proof (frozen_count_le n (length model)) as Hk.
  rewrite freeze_layers_prefix, length_app, length_map, length_take, length_drop.
  lia.
Qed.

Lemma freeze_layers_lookup (n : Z) (model : list block) (i : nat) :
  freeze_layers n model !! i
  = if decide (i < frozen_count n (length model))%nat
    then requires_grad_ false <$> model !! i
    else model !! i.
Proof.
  pose proof (frozen_count_le n (length model)) as Hk.
  rewrite freeze_layers_prefix.
  assert (Hlen : length (map (requires_grad_ false)
                          (take (frozen_count n (length model)) model))
                 = frozen_count n (length model))
    by (rewrite length_map, length_take; lia).
  case_decide as Hi.
  - rewrite lookup_app_l by lia.
    change (map ?f ?l) with (f <$> l).
    by rewrite list_lookup_fmap, lookup_take_lt.
  - rewrite lookup_app_r by lia. rewrite Hlen, lookup_drop.
    f_equal. lia.
Qed.

Lemma requires_grad_idemp (m : block) :
  requires_grad_ false (requires_grad_ false m) = requires_grad_ false m.
Proof. unfold requires_grad_. rewrite map_map. done. Qed.

(** X15.  Freezing never turns a gradient on and never changes the shape
    of the model: whatever [num_layers_unfrozen] is, the model after the
    loop has the same blocks with the same parameters under the same
    names, and a parameter that requires a gradient afterwards required
    one before. *)
Theorem freeze_never_enables (num_layers_unfrozen : Z) (model : list block) :
  Forall2
    (Forall2 (fun p q =>
                param_name q = param_name p
                /\ (requires_grad q = true -> requires_grad p = true)))
    model (freeze_layers num_layers_unfrozen model).
Proof.
  rewrite freeze_layers_prefix.
  set (k := frozen_count num_layers_unfrozen (length model)).
  rewrite <- (take_drop k model) at 1.
  apply Forall2_app.
  - apply Forall2_fmap_r, Forall_Forall2_diag, Forall_forall.
    intros m _. unfold requires_grad_.
    apply Forall2_fmap_r, Forall_Forall2_diag, Forall_forall.
    intros p _. cbn. split; [ done | discriminate ].
  - apply Forall_Forall2_diag, Forall_forall. intros m _.
    apply Forall_Forall2_diag, Forall_forall. intros p _. done.
Qed.



End FreezeMore.
